(** * TeslaFallbackManager: selection, fallback execution and metrics

    A shallow embedding of the class [TeslaFallbackManager]
    (the smart fallback manager of the Tesla player) and the properties
    of its selection pipeline, its retry/fallback loop and its metrics.

    Conventions of the embedding.
    - JavaScript numbers are idealised as exact rationals ([Q]); integer
      valued fields that only ever hold integers ([priority], [retries])
      are [Z].  Equalities between computed numbers are therefore stated
      with [==] ([Qeq]).
    - [Array.prototype.sort] is the stable sort required since ES2019; it
      is modelled as a stable insertion sort driven by the comparator's
      sign, which is what every stable sort computes for a comparator that
      induces a total preorder.
    - An object used as a dictionary ([metrics.successRate], the boolean
      capability properties of [deviceInfo]) is a [gmap] keyed by the
      property name. *)

From Stdlib Require Import ZArith QArith Qminmax Lqa List Sorting.Permutation Sorting.Sorted.
From stdpp Require Import gmap strings list fin_maps.

Local Open Scope Q_scope.

(** ** Data model *)

(** One entry of [this.methods].  [available] is the flag written by
    [detectMethodAvailability]; before detection the property is
    [undefined], which every reader treats like [false]. *)
Record Method := mkMethod {
  name : string;
  priority : Z;
  timeout : Q;
  retries : Z;
  requirements : list string;
  available : bool
}.


(** [this.networkInfo], as far as [getNetworkSpeedCategory] reads it.  A
    property that is [null] or [undefined] is [None]. *)
Record NetworkInfo := mkNetworkInfo {
  effective_type : string;
  downlink : option Q;
  bandwidth_estimate : option Q
}.

Inductive SpeedCategory := Slow | Medium | Fast | Unknown.

(** Values that can be thrown or used to reject a promise: objects with a
    [name] and a [message], as built by [new Error(msg)] or raised by the
    engine itself. *)
Record JsError := mkJsError { err_name : string; message : string }.

Definition newError (msg : string) : JsError := mkJsError "Error" msg.

(** Reading an identifier that no enclosing scope binds. *)
Definition referenceError (ident : string) : JsError :=
  mkJsError "ReferenceError" (ident ++ " is not defined").

(** Entries of [this.attemptHistory] and of [metrics.connectionTime]. *)
Record AttemptRecord := mkAttemptRecord {
  h_method : string;
  h_success : bool;
  h_error : string;
  h_time : Q;
  h_timestamp : Q
}.

Record ConnectionRecord := mkConnectionRecord {
  c_method : string;
  c_time : Q;
  c_timestamp : Q
}.

(** [this.metrics].  [firstFrameTime] and [bandwidthUsage] are created
    empty and never touched by the class; they are left out. *)
Record Metrics := mkMetrics {
  connectionTime : list ConnectionRecord;
  errorRate : Q;
  successRate : gmap string Q
}.

(** The manager object ([this]).  The callbacks keep their default
    value, the function that does nothing. *)
Record Manager := mkManager {
  methods : list Method;
  currentMethod : option Method;
  attemptHistory : list AttemptRecord;
  networkInfo : option NetworkInfo;
  deviceInfo : option (gmap string bool);
  metrics : Metrics
}.

(** The catalog built by the constructor. *)
Definition webrtc : Method :=
  mkMethod "webrtc" 1 10000 2 ["webrtc_support"; "websocket_support"] false.
Definition proxy : Method := mkMethod "proxy" 2 15000 3 ["proxy_server"] false.
Definition transcode : Method :=
  mkMethod "transcode" 3 30000 2 ["proxy_server"; "ffmpeg_support"] false.
Definition direct : Method := mkMethod "direct" 4 20000 1 [] false.

Definition defaultMethods : list Method := [webrtc; proxy; transcode; direct].

Definition emptyMetrics : Metrics := mkMetrics [] 0 ∅.

(** State right after the constructor, before capability detection. *)
Definition newManager : Manager :=
  mkManager defaultMethods None [] None None emptyMetrics.

(** ** JavaScript helpers *)

Definition Qltb (a b : Q) : bool := negb (Qle_bool b a).

(** A numeric property read as a condition: its value when it is
    present and not zero. *)
Definition truthyNum (o : option Q) : option Q :=
  match o with
  | Some q => if Qeq_bool q 0 then None else Some q
  | None => None
  end.

(** [l.indexOf(s)], -1 when absent. *)
Fixpoint indexOfFrom (i : Z) (l : list string) (s : string) : Z :=
  match l with
  | [] => (-1)%Z
  | x :: l' => if String.eqb x s then i else indexOfFrom (i + 1)%Z l' s
  end.

Definition indexOf (l : list string) (s : string) : Z := indexOfFrom 0%Z l s.

(** [l.sort(cmp)]: [x], taken from the left of the elements already
    placed, moves right past exactly those [y] with [cmp x y > 0].  The
    comparators of the class compare a numeric key (a priority, a
    position, a score) or, in [executeWithFallback], put one name first;
    with the unique names of the catalog each of them induces a total
    preorder, for which the result of a stable sort is unique. *)
Fixpoint sortInsert {A : Type} (cmp : A -> A -> Q) (x : A) (l : list A) : list A :=
  match l with
  | [] => [x]
  | y :: l' =>
      if Qle_bool (cmp x y) 0 then x :: y :: l' else y :: sortInsert cmp x l'
  end.

Fixpoint jsSort {A : Type} (cmp : A -> A -> Q) (l : list A) : list A :=
  match l with
  | [] => []
  | x :: l' => sortInsert cmp x (jsSort cmp l')
  end.

(** ** Capability detection *)

(** [this.deviceInfo?.tag] read as a condition. *)
Definition capability (d : option (gmap string bool)) (tag : string) : bool :=
  match d with
  | Some caps => match caps !! tag with Some true => true | _ => false end
  | None => false
  end.

(** The loop of [checkMethodRequirements] over [method.requirements].
    Only the two device capabilities are tested; the cases
    ['proxy_server'] and ['ffmpeg_support'] break without a test, and any
    other tag matches no case. *)
Fixpoint checkRequirements (d : option (gmap string bool)) (reqs : list string) : bool :=
  match reqs with
  | [] => true
  | requirement :: rest =>
      if String.eqb requirement "webrtc_support" then
        if capability d "webrtc_support" then checkRequirements d rest else false
      else if String.eqb requirement "websocket_support" then
        if capability d "websocket_support" then checkRequirements d rest else false
      else checkRequirements d rest
  end.

Definition checkMethodRequirements (st : Manager) (m : Method) : bool :=
  checkRequirements (deviceInfo st) (requirements m).

Definition setAvailable (b : bool) (m : Method) : Method :=
  mkMethod (name m) (priority m) (timeout m) (retries m) (requirements m) b.

Definition setMethods (ms : list Method) (st : Manager) : Manager :=
  mkManager ms (currentMethod st) (attemptHistory st) (networkInfo st)
            (deviceInfo st) (metrics st).

Definition detectMethodAvailability (st : Manager) : Manager :=
  setMethods (map (fun m => setAvailable (checkMethodRequirements st m) m) (methods st)) st.

(** The state reached by [initializeCapabilityDetection] when the two
    detectors return [d] and [n]. *)
Definition initializeCapabilityDetection
    (d : gmap string bool) (n : NetworkInfo) (st : Manager) : Manager :=
  detectMethodAvailability
    (mkManager (methods st) (currentMethod st) (attemptHistory st)
               (Some n) (Some d) (metrics st)).

(** ** Selection *)

Definition getNetworkSpeedCategory (st : Manager) : SpeedCategory :=
  match networkInfo st with
  | None => Unknown
  | Some n =>
      let et := effective_type n in
      if String.eqb et "slow-2g" || String.eqb et "2g" then Slow
      else if String.eqb et "3g" then Medium
      else if String.eqb et "4g" then Fast
      else
        match truthyNum (downlink n) with
        | Some dl => if Qltb dl 1 then Slow else if Qltb dl 10 then Medium else Fast
        | None =>
            match truthyNum (bandwidth_estimate n) with
            | Some bw =>
                if Qltb bw 1000000 then Slow
                else if Qltb bw 10000000 then Medium else Fast
            | None => Medium
            end
        end
  end.

Definition lightweightOrder : list string := ["direct"; "proxy"; "transcode"; "webrtc"].

(** The copy [{ ...method }] with its timeout and retries adjusted. *)
Definition optimizedMethod (networkSpeed : SpeedCategory) (m : Method) : Method :=
  match networkSpeed with
  | Slow => mkMethod (name m) (priority m) (timeout m * 2) (retries m + 1)
                     (requirements m) (available m)
  | Medium => mkMethod (name m) (priority m) (timeout m * 1.5) (retries m)
                       (requirements m) (available m)
  | Fast => mkMethod (name m) (priority m) (timeout m * 0.8) (retries m)
                     (requirements m) (available m)
  | Unknown => m
  end.

Definition byPriority (a b : Method) : Q := inject_Z (priority a - priority b).

Definition byLightweightOrder (a b : Method) : Q :=
  inject_Z (indexOf lightweightOrder (name a) - indexOf lightweightOrder (name b)).

Definition optimizeMethodsByNetwork (st : Manager) (ms : list Method) : list Method :=
  match networkInfo st with
  | None => ms
  | Some _ =>
      let networkSpeed := getNetworkSpeedCategory st in
      jsSort (match networkSpeed with
              | Slow => byLightweightOrder
              | _ => byPriority
              end)
             (map (optimizedMethod networkSpeed) ms)
  end.

(** [rates[name] || 0.5]: an absent entry and a stored zero both read
    as 0.5. *)
Definition rateOrDefault (rates : gmap string Q) (n : string) : Q :=
  match rates !! n with
  | Some r => if Qeq_bool r 0 then 0.5 else r
  | None => 0.5
  end.

Definition score (st : Manager) (m : Method) : Q :=
  (rateOrDefault (successRate (metrics st)) (name m) * 0.7)
  + ((5 - inject_Z (priority m)) * 0.3).

Definition byScore (st : Manager) (a b : Method) : Q := score st b - score st a.

Definition optimizeMethodsByHistory (st : Manager) (ms : list Method) : list Method :=
  jsSort (byScore st) ms.

Definition availableMethods (st : Manager) : list Method :=
  jsSort byPriority (List.filter available (methods st)).

(** The local [finalMethods] of [selectBestMethod]: the whole ordered
    list, of which the method returns the head. *)
Definition finalMethods (st : Manager) : list Method :=
  optimizeMethodsByHistory st (optimizeMethodsByNetwork st (availableMethods st)).

Inductive Completion (T : Type) : Type :=
| Return (v : T)
| Throw (e : JsError).
Arguments Return {T} v.
Arguments Throw {T} e.

Definition setCurrentMethod (m : Method) (st : Manager) : Manager :=
  mkManager (methods st) (Some m) (attemptHistory st) (networkInfo st)
            (deviceInfo st) (metrics st).

Definition selectBestMethod (st : Manager) : Completion Method * Manager :=
  match availableMethods st with
  | [] => (Throw (newError "没有可用的播放方案"), st)
  | _ :: _ =>
      match finalMethods st with
      | selectedMethod :: _ => (Return selectedMethod, setCurrentMethod selectedMethod st)
      | [] =>
          (* never taken: sorting and mapping keep the length
             ([finalMethods_length]) *)
          (Throw (mkJsError "TypeError" "selectedMethod is undefined"), st)
      end
  end.

(** ** Metrics *)

Definition setMetrics (history : list AttemptRecord) (mt : Metrics) (st : Manager) : Manager :=
  mkManager (methods st) (currentMethod st) history (networkInfo st) (deviceInfo st) mt.

(** [l.slice(-n)]: the last [n] elements. *)
Definition sliceLast {A : Type} (n : nat) (l : list A) : list A :=
  skipn (length l - n) l.

(** [l.shift()] when [l.length > bound]. *)
Definition limitLength {A : Type} (bound : nat) (l : list A) : list A :=
  if (bound <? length l)%nat then tail l else l.

Definition computeErrorRate (history : list AttemptRecord) : Q :=
  let recentAttempts := sliceLast 20 history in
  let failures := length (List.filter (fun attempt => negb (h_success attempt)) recentAttempts) in
  if (0 <? length recentAttempts)%nat
  then inject_Z (Z.of_nat failures) / inject_Z (Z.of_nat (length recentAttempts))
  else 0.

Definition updateMetrics (st : Manager) : Manager :=
  setMetrics (attemptHistory st)
    (mkMetrics (connectionTime (metrics st))
               (computeErrorRate (attemptHistory st))
               (successRate (metrics st)))
    st.

(** [if (!rates[name]) rates[name] = 0.5; rates[name] = Math.min(1, rates[name] + 0.1)].
    The value read by the second statement is [rateOrDefault]. *)
Definition bumpSuccessRate (n : string) (rates : gmap string Q) : gmap string Q :=
  <[n := Qmin 1 (rateOrDefault rates n + 0.1)]> rates.

Definition dropSuccessRate (n : string) (rates : gmap string Q) : gmap string Q :=
  <[n := Qmax 0 (rateOrDefault rates n - 0.1)]> rates.

(** [recordSuccess(method, time)]; [dateNow] is the value of [Date.now()]. *)
Definition recordSuccess (m : Method) (time dateNow : Q) (st : Manager) : Manager :=
  updateMetrics
    (setMetrics (attemptHistory st)
       (mkMetrics
          (limitLength 100
             (connectionTime (metrics st) ++ [mkConnectionRecord (name m) time dateNow]))
          (errorRate (metrics st))
          (bumpSuccessRate (name m) (successRate (metrics st))))
       st).

(** [recordFailure(method, error, time)]. *)
Definition recordFailure (m : Method) (error : JsError) (time dateNow : Q) (st : Manager)
  : Manager :=
  updateMetrics
    (setMetrics
       (limitLength 50
          (attemptHistory st
           ++ [mkAttemptRecord (name m) false (message error) time dateNow]))
       (mkMetrics (connectionTime (metrics st))
                  (errorRate (metrics st))
                  (dropSuccessRate (name m) (successRate (metrics st))))
       st).

Definition resetMetrics (st : Manager) : Manager := setMetrics [] emptyMetrics st.

(** ** Execution with fallback *)

Section Executor.

(** The type of the values the promise returned by [playFunction]
    resolves to. *)
Context {R : Type}.

(** What one call of [playFunction(method, videoUrl, options)] does:
    its promise is fulfilled or rejected after some delay, or stays
    pending for ever.  A call that throws synchronously is caught by the
    same handler as a rejection without delay. *)
Inductive OpBehaviour : Type :=
| Resolves (after : Q) (v : R)
| Rejects (after : Q) (e : JsError)
| Pending.

(** The surroundings of one call of [executeWithFallback]:
    - [playFunction k m] is the behaviour of the call number [k] (from 0)
      of the caller's function, made on method [m];
    - [globalAttemptStartTime] is the binding the identifier
      [attemptStartTime] resolves to inside the [catch] block.  The
      [const attemptStartTime] of the loop is declared inside the [try]
      block, so it is out of scope in the handler and the identifier is
      looked up in the enclosing scopes, none of which binds it, and at
      last in the global object: [None] when the page defines no such
      global (nothing in the repository does), [Some g] when it holds
      the number [g]. *)
Record Env : Type := mkEnv {
  playFunction : nat -> Method -> OpBehaviour;
  globalAttemptStartTime : option Q
}.

(** One iteration of the retry loop, as seen from outside: the method
    object handed to [playFunction], the loop counter, the delay given
    to [setTimeout], and how the race was settled. *)
Record Attempt : Type := mkAttempt {
  a_method : Method;
  a_index : Z;
  a_timeout : Q;
  a_settled : R + JsError
}.

(** The manager together with the virtual clock read by
    [performance.now()] and [Date.now()] (it advances only while the
    function awaits), the number of calls of [playFunction] made so far
    and the attempts made so far. *)
Record World : Type := mkWorld {
  manager : Manager;
  clock : Q;
  calls : nat;
  trace : list Attempt
}.

Definition timeoutError : JsError := newError "播放超时".

(** [Promise.race([playPromise, timeoutPromise])]: the delay after which
    the race settles and its outcome.  The timer is armed before the
    operation starts, so it wins when both fall due together. *)
Definition race (b : OpBehaviour) (ms : Q) : Q * (R + JsError) :=
  let due := Qmax 0 ms in
  match b with
  | Resolves after v => if Qltb after due then (after, inl v) else (due, inr timeoutError)
  | Rejects after e => if Qltb after due then (after, inr e) else (due, inr timeoutError)
  | Pending => (due, inr timeoutError)
  end.

Definition setManager (st : Manager) (w : World) : World :=
  mkWorld st (clock w) (calls w) (trace w).

(** [await this.delay(ms)]. *)
Definition delay (ms : Q) (w : World) : World :=
  mkWorld (manager w) (clock w + ms) (calls w) (trace w).

(** How a loop is left: by [return] or [throw] out of the function, or
    by running to its end. *)
Inductive Signal : Type :=
| Done (c : Completion R) (w : World)
| Fallthrough (lastError : option JsError) (w : World).

(** The loop [for (let attempt = 0; attempt < method.retries; attempt++)]
    with [remaining] iterations still to run. *)
Fixpoint attemptLoop (env : Env) (m : Method) (remaining : nat) (attempt : Z)
    (lastError : option JsError) (w : World) : Signal :=
  match remaining with
  | O => Fallthrough lastError w
  | S remaining' =>
      let attemptStartTime := clock w in
      let '(elapsed, settled) := race (playFunction env (calls w) m) (timeout m) in
      let w1 := mkWorld (manager w) (clock w + elapsed) (S (calls w))
                        (trace w ++ [mkAttempt m attempt (timeout m) settled]) in
      match settled with
      | inl result =>
          let attemptTime := clock w1 - attemptStartTime in
          Done (Return result)
               (setManager (recordSuccess m attemptTime (clock w1) (manager w1)) w1)
      | inr error =>
          match globalAttemptStartTime env with
          | None => Done (Throw (referenceError "attemptStartTime")) w1
          | Some g =>
              let attemptTime := clock w1 - g in
              let w2 := setManager
                          (recordFailure m error attemptTime (clock w1) (manager w1)) w1 in
              let w3 := if (attempt <? retries m - 1)%Z
                        then delay (1000 * inject_Z (attempt + 1)) w2 else w2 in
              attemptLoop env m remaining' (attempt + 1)%Z (Some error) w3
          end
      end
  end.

(** The loop [for (const method of methodsToTry)]. *)
Fixpoint methodLoop (env : Env) (ms : list Method)
    (lastError : option JsError) (w : World) : Signal :=
  match ms with
  | [] => Fallthrough lastError w
  | m :: rest =>
      match attemptLoop env m (Z.to_nat (retries m)) 0%Z lastError w with
      | Done c w' => Done c w'
      | Fallthrough lastError' w' => methodLoop env rest lastError' w'
      end
  end.

Definition selectedFirst (selectedMethod a b : Method) : Q :=
  if String.eqb (name a) (name selectedMethod) then -1
  else if String.eqb (name b) (name selectedMethod) then 1
  else inject_Z (priority a - priority b).

Definition methodsToTry (st : Manager) (selectedMethod : Method) : list Method :=
  jsSort (selectedFirst selectedMethod) (List.filter available (methods st)).

(** [lastError?.message || '未知错误']. *)
Definition messageOrUnknown (lastError : option JsError) : string :=
  match lastError with
  | Some e => if String.eqb (message e) EmptyString then "未知错误" else message e
  | None => "未知错误"
  end.

Definition allFailed (lastError : option JsError) : JsError :=
  newError ("所有播放方案都失败了: " ++ messageOrUnknown lastError).

Definition executeWithFallback (env : Env) (w : World) : Completion R * World :=
  match selectBestMethod (manager w) with
  | (Throw e, st) => (Throw e, setManager st w)
  | (Return selectedMethod, st) =>
      match methodLoop env (methodsToTry st selectedMethod) None (setManager st w) with
      | Done c w' => (c, w')
      | Fallthrough lastError w' => (Throw (allFailed lastError), w')
      end
  end.

(** A call made at time [t] on manager [st]. *)
Definition call (st : Manager) (t : Q) : World := mkWorld st t 0 [].

End Executor.

Arguments OpBehaviour R : clear implicits.
Arguments Env R : clear implicits.
Arguments Attempt R : clear implicits.
Arguments World R : clear implicits.
Arguments Signal R : clear implicits.

(** ** Vocabulary of the statements *)

(** Order and classes induced by a numeric key. *)
Definition keyLe {A : Type} (key : A -> Q) (a b : A) : Prop := key a <= key b.

Definition inClass {A : Type} (key : A -> Q) (k : Q) (z : A) : bool :=
  Qeq_bool (key z) k.

(** [a] occurs before [b] in [l]. *)
Definition before {A : Type} (a b : A) (l : list A) : Prop :=
  exists l1 l2 l3, l = l1 ++ a :: l2 ++ b :: l3.

(** A recorded attempt: one call of [recordSuccess] or of
    [recordFailure]. *)
Inductive Recorded : Type :=
| Succeeded (m : Method) (time dateNow : Q)
| Failed (m : Method) (error : JsError) (time dateNow : Q).

Definition record (st : Manager) (r : Recorded) : Manager :=
  match r with
  | Succeeded m time dateNow => recordSuccess m time dateNow st
  | Failed m error time dateNow => recordFailure m error time dateNow st
  end.

Definition recordAll (rs : list Recorded) (st : Manager) : Manager :=
  fold_left record rs st.

Definition ratesWithin (rates : gmap string Q) : Prop :=
  forall n r, rates !! n = Some r -> 0 <= r /\ r <= 1.

(** The update rule in the words of the specification:
    [new = old*(1-alpha) + outcome*alpha]. *)
Definition specEma (alpha old outcome : Q) : Q :=
  old * (1 - alpha) + outcome * alpha.

(** A history that holds failure records only. *)
Definition onlyFailures (history : list AttemptRecord) : Prop :=
  Forall (fun a => h_success a = false) history.

(** What the selection orders: the available methods, each replaced by
    its copy adjusted to the network. *)
Definition adjustedMethods (st : Manager) : list Method :=
  map (optimizedMethod (getNetworkSpeedCategory st)) (List.filter available (methods st)).

Definition scoreDescending (st : Manager) (a b : Method) : Prop :=
  score st b <= score st a.

Definition priorityAscending (a b : Method) : Prop := (priority a <= priority b)%Z.

(** The methods with score [k] and priority [p]. *)
Definition tied (st : Manager) (k : Q) (p : Z) (m : Method) : bool :=
  Qeq_bool (score st m) k && (priority m =? p)%Z.

(** The score in the words of the specification:
    [0.7*successRate + 0.3*priorityScore] with
    [priorityScore = (maxPriorityValue - priority) / maxPriorityValue] and
    the rate of an unseen strategy read as 0.5. *)
Definition specScore (maxPriorityValue : Q) (st : Manager) (m : Method) : Q :=
  0.7 * default 0.5 (successRate (metrics st) !! name m)
  + 0.3 * ((maxPriorityValue - inject_Z (priority m)) / maxPriorityValue).

Definition specScoreDescending (maxPriorityValue : Q) (st : Manager) (a b : Method) : Prop :=
  specScore maxPriorityValue st b <= specScore maxPriorityValue st a.

(** The override list restricted to the available strategies. *)
Definition specLightweightFirst (st : Manager) : list string :=
  List.filter
    (fun n => existsb (String.eqb n) (map name (List.filter available (methods st))))
    lightweightOrder.

(** Inputs used in the examples: a device with WebRTC and WebSocket, and
    a network described by its effective type only. *)
Definition deviceCapabilities : gmap string bool :=
  {[ "webrtc_support" := true; "websocket_support" := true;
     "hardware_acceleration" := true ]}.

Definition networkOf (effectiveType : string) : NetworkInfo :=
  mkNetworkInfo effectiveType None None.

Definition detectedOn (d : gmap string bool) (effectiveType : string) : Manager :=
  initializeCapabilityDetection d (networkOf effectiveType) newManager.

Definition detected (effectiveType : string) : Manager :=
  detectedOn deviceCapabilities effectiveType.

(** A browser without WebRTC. *)
Definition noWebrtcDevice : gmap string bool :=
  {[ "webrtc_support" := false; "websocket_support" := true;
     "hardware_acceleration" := true ]}.

(** A manager on a fast network for which four successes of [proxy] have
    been recorded. *)
Definition proxyProven : Manager :=
  recordAll (repeat (Succeeded proxy 0 0) 4) (detected "4g").

(** The world in which a loop is left. *)
Definition signalWorld {R : Type} (s : Signal R) : World R :=
  match s with
  | Done _ w => w
  | Fallthrough _ w => w
  end.

(** The error of the latest attempt, when that attempt failed. *)
Definition lastFailure {R : Type} (t : list (Attempt R)) : option JsError :=
  match last t with
  | Some a => match a_settled a with inr e => Some e | inl _ => None end
  | None => None
  end.

(** What an attempt was made with: the method object, the loop counter
    and the delay of the timer. *)
Definition shape {R : Type} (a : Attempt R) : Method * Z * Q :=
  (a_method a, a_index a, a_timeout a).

(** Every method of the plan tried [retries] times, in order. *)
Definition fullBudget (plan : list Method) : list (Method * Z * Q) :=
  flat_map (fun m => map (fun j => (m, Z.of_nat j, timeout m)) (seq 0 (Z.to_nat (retries m))))
           plan.

(** An attempt made with the catalog's own values: on a method object of
    the catalog, with that object's timeout and within its retries, and
    settled by the race of a call of [playFunction] against that timeout. *)
Definition usesCatalog {R : Type} (env : Env R) (st : Manager) (a : Attempt R) : Prop :=
  In (a_method a) (methods st)
  /\ a_timeout a = timeout (a_method a)
  /\ (0 <= a_index a < retries (a_method a))%Z
  /\ exists k, a_settled a = snd (race (playFunction env k (a_method a))
                                       (timeout (a_method a))).

(** No call of [playFunction] wins its race. *)
Definition alwaysFails {R : Type} (env : Env R) : Prop :=
  forall k m, exists e, snd (race (playFunction env k m) (timeout m)) = inr e.

(** The entries of the aggregate failure of the specification: for each
    strategy of the plan its name, the number of attempts made on it and
    its last error. *)
Definition attemptsOn {R : Type} (n : string) (t : list (Attempt R)) : list (Attempt R) :=
  List.filter (fun a => String.eqb (name (a_method a)) n) t.

Definition specAggregateEntries {R : Type} (plan : list Method) (t : list (Attempt R))
  : list (string * nat * option JsError) :=
  map (fun m => (name m, length (attemptsOn (name m) t), lastFailure (attemptsOn (name m) t)))
      plan.

(** Callers used in the examples.  In an ordinary page nothing binds
    [attemptStartTime]. *)
Definition rejecting (msg : string) : OpBehaviour string := Rejects 100 (newError msg).

Definition failingPage : Env string :=
  mkEnv (fun _ _ => rejecting "network error") None.

Definition webrtcDown (global : option Q) : Env string :=
  mkEnv (fun _ m => if String.eqb (name m) "webrtc"
                    then rejecting "ICE failed" else Resolves 100 "playing")
        global.

Definition allDown (webrtcMessage : string) : Env string :=
  mkEnv (fun _ m => if String.eqb (name m) "webrtc"
                    then rejecting webrtcMessage else rejecting "unreachable")
        (Some 0).

(** ** The life of a manager *)

Definition setDeviceInfo (d : gmap string bool) (st : Manager) : Manager :=
  mkManager (methods st) (currentMethod st) (attemptHistory st) (networkInfo st)
            (Some d) (metrics st).

Definition setNetworkInfo (n : NetworkInfo) (st : Manager) : Manager :=
  mkManager (methods st) (currentMethod st) (attemptHistory st) (Some n)
            (deviceInfo st) (metrics st).

(** One iteration of the loop of [detectMethodAvailability], on the
    method at position [k]: the loop awaits between two methods, so other
    calls can see the catalog half detected. *)
Definition detectOne (k : nat) (st : Manager) : Manager :=
  setMethods (alter (fun m => setAvailable (checkMethodRequirements st m) m) k (methods st)) st.

(** The states of a manager: the one built by the constructor, and those
    its methods lead to.  [initializeCapabilityDetection] is started by
    the constructor and not awaited, so each of its steps is a step of
    its own. *)
Inductive Reachable : Manager -> Prop :=
| reach_new : Reachable newManager
| reach_device (d : gmap string bool) (st : Manager) :
    Reachable st -> Reachable (setDeviceInfo d st)
| reach_network (n : NetworkInfo) (st : Manager) :
    Reachable st -> Reachable (setNetworkInfo n st)
| reach_detectOne (k : nat) (st : Manager) :
    Reachable st -> Reachable (detectOne k st)
| reach_detect (st : Manager) :
    Reachable st -> Reachable (detectMethodAvailability st)
| reach_select (st : Manager) :
    Reachable st -> Reachable (snd (selectBestMethod st))
| reach_success (m : Method) (time dateNow : Q) (st : Manager) :
    Reachable st -> Reachable (recordSuccess m time dateNow st)
| reach_failure (m : Method) (error : JsError) (time dateNow : Q) (st : Manager) :
    Reachable st -> Reachable (recordFailure m error time dateNow st)
| reach_reset (st : Manager) :
    Reachable st -> Reachable (resetMetrics st)
| reach_execute (R : Type) (env : Env R) (t : Q) (st : Manager) :
    Reachable st -> Reachable (manager (snd (executeWithFallback env (call st t)))).

(** What the catalog declares about a method: everything but the
    availability flag. *)
Definition declaration (m : Method) : string * Z * Q * Z * list string :=
  (name m, priority m, timeout m, retries m, requirements m).

(** The error rate the history stands for. *)
Definition errorRateOf (history : list AttemptRecord) : Q :=
  match history with [] => 0 | _ :: _ => 1 end.

Definition sumQ (l : list Q) : Q := fold_right Qplus 0 l.

(** The longest one method can keep a call busy, in milliseconds:
    [retries] attempts of at most [timeout] each and, between them, the
    waits of 1000, 2000, ... *)
Definition attemptBudget (m : Method) : Q :=
  let r := Z.max 0 (retries m) in
  inject_Z r * Qmax 0 (timeout m) + inject_Z (500 * r * (r - 1)).

Definition failed {R : Type} (a : Attempt R) : Prop :=
  exists e, a_settled a = inr e.

(** The invariants of a manager. *)
Definition storageBounded (st : Manager) : Prop :=
  (length (attemptHistory st) <= 50)%nat
  /\ (length (connectionTime (metrics st)) <= 100)%nat.

Definition catalogFixed (st : Manager) : Prop :=
  map declaration (methods st) = map declaration defaultMethods.

Definition metricsConsistent (st : Manager) : Prop :=
  ratesWithin (successRate (metrics st))
  /\ onlyFailures (attemptHistory st)
  /\ errorRate (metrics st) == errorRateOf (attemptHistory st).

Definition recordedMethod (r : Recorded) : Method :=
  match r with
  | Succeeded m _ _ => m
  | Failed m _ _ _ => m
  end.

(** The effective types [getNetworkSpeedCategory] knows. *)
Definition knownEffectiveType (et : string) : bool :=
  String.eqb et "slow-2g" || String.eqb et "2g" || String.eqb et "3g" || String.eqb et "4g".

Definition speedOf (n : NetworkInfo) : SpeedCategory :=
  getNetworkSpeedCategory (setNetworkInfo n newManager).

(** A call has returned [v]: the last attempt is the one that gave [v],
    every attempt before it failed, and the latest entry of the
    connection-time list is the success of its method. *)
Definition returned {R : Type} (v : R) (w : World R) : Prop :=
  exists prev a,
    trace w = prev ++ [a] /\ a_settled a = inl v /\ Forall failed prev
    /\ (c_method <$> last (connectionTime (metrics (manager w))))
       = Some (name (a_method a)).

Definition leftWith {R : Type} (s : Signal R) : Prop :=
  match s with
  | Done (Return v) w => returned v w
  | Done (Throw _) w => Forall failed (trace w)
  | Fallthrough _ w => Forall failed (trace w)
  end.

(** The waits of the retry loop of a method with [r] retries, from the
    iteration [attempt] on, [remaining] iterations being left. *)
Fixpoint backoffWaits (r attempt : Z) (remaining : nat) : Z :=
  match remaining with
  | O => 0
  | S remaining' =>
      ((if attempt <? r - 1 then 1000 * (attempt + 1) else 0)
       + backoffWaits r (attempt + 1) remaining')%Z
  end.

(** The budget of a method, read off its declaration. *)
Definition budgetOf (d : string * Z * Q * Z * list string) : Q :=
  let '(_, _, timeoutMs, retriesOf, _) := d in
  let r := Z.max 0 retriesOf in
  inject_Z r * Qmax 0 timeoutMs + inject_Z (500 * r * (r - 1)).

(** * TeslaPerformanceOptimizer

    The second class of the file: the optimizer that adapts quality,
    buffer size and frame skipping to the measured performance.  Canvas,
    WebGL and audio objects, the garbage collector and the DOM are
    outside of it; what the class does to them is left out, what it
    reads from the browser is an argument. *)

(** ['auto'], ['high'], ['medium'] and ['low']: the only values ever
    assigned to [qualityLevel]. *)
Inductive QualityLevel : Type := qAuto | qHigh | qMedium | qLow.

(** A number that may be [Infinity]: a quotient whose divisor is zero. *)
Inductive JsNum : Type :=
| Num (q : Q)
| PosInfinity.

(** [x < y] and [x > y] for a possibly infinite [x]. *)
Definition numBelow (x : JsNum) (y : Q) : bool :=
  match x with Num q => Qltb q y | PosInfinity => false end.

Definition numAbove (x : JsNum) (y : Q) : bool :=
  match x with Num q => Qltb y q | PosInfinity => true end.

Record PerformanceMetrics := mkPerformanceMetrics {
  fps : JsNum;
  frameDrops : Q;
  memoryUsage : Q;
  cpuUsage : Q;
  renderTime : Q;
  decodeTime : Q
}.

Record OptimizationSettings := mkOptimizationSettings {
  enableFrameSkipping : bool;
  enableMemoryOptimization : bool;
  enableQualityAdaptation : bool;
  enableBufferOptimization : bool;
  enableGPUAcceleration : bool
}.

Record Optimizer := mkOptimizer {
  frameRateTarget : Q;
  memoryThreshold : Q;
  bufferSize : Q;
  qualityLevel : QualityLevel;
  performanceMetrics : PerformanceMetrics;
  optimizationSettings : OptimizationSettings;
  frameCounter : Z;
  lastFrameTime : Q;
  fpsStartTime : option Q;
  renderTimeHistory : list Q;
  decodeTimeHistory : list Q
}.

(** What the constructor reads from the browser: the renderer string
    of WebGL (when there is a WebGL context with the debug extension),
    [navigator.deviceMemory], [navigator.hardwareConcurrency],
    [navigator.userAgent] and [performance.now()]. *)
Record Browser := mkBrowser {
  rendererInfo : option string;
  deviceMemory : option Q;
  hardwareConcurrency : option Q;
  userAgent : string;
  startedAt : Q
}.

(** [s.includes(sub)]. *)
Fixpoint includes (s sub : string) : bool :=
  if String.prefix sub s then true
  else match s with
       | EmptyString => false
       | String _ s' => includes s' sub
       end.

Definition withFrameRateTarget (x : Q) (o : Optimizer) : Optimizer :=
  mkOptimizer x (memoryThreshold o) (bufferSize o) (qualityLevel o) (performanceMetrics o)
    (optimizationSettings o) (frameCounter o) (lastFrameTime o) (fpsStartTime o)
    (renderTimeHistory o) (decodeTimeHistory o).

Definition withBufferSize (x : Q) (o : Optimizer) : Optimizer :=
  mkOptimizer (frameRateTarget o) (memoryThreshold o) x (qualityLevel o)
    (performanceMetrics o) (optimizationSettings o) (frameCounter o) (lastFrameTime o)
    (fpsStartTime o) (renderTimeHistory o) (decodeTimeHistory o).

Definition withQualityLevel (x : QualityLevel) (o : Optimizer) : Optimizer :=
  mkOptimizer (frameRateTarget o) (memoryThreshold o) (bufferSize o) x
    (performanceMetrics o) (optimizationSettings o) (frameCounter o) (lastFrameTime o)
    (fpsStartTime o) (renderTimeHistory o) (decodeTimeHistory o).

Definition withPerformanceMetrics (x : PerformanceMetrics) (o : Optimizer) : Optimizer :=
  mkOptimizer (frameRateTarget o) (memoryThreshold o) (bufferSize o) (qualityLevel o) x
    (optimizationSettings o) (frameCounter o) (lastFrameTime o) (fpsStartTime o)
    (renderTimeHistory o) (decodeTimeHistory o).

Definition withOptimizationSettings (x : OptimizationSettings) (o : Optimizer) : Optimizer :=
  mkOptimizer (frameRateTarget o) (memoryThreshold o) (bufferSize o) (qualityLevel o)
    (performanceMetrics o) x (frameCounter o) (lastFrameTime o) (fpsStartTime o)
    (renderTimeHistory o) (decodeTimeHistory o).

Definition withFrames (counter : Z) (lastFrame : Q) (fpsStart : option Q) (o : Optimizer)
  : Optimizer :=
  mkOptimizer (frameRateTarget o) (memoryThreshold o) (bufferSize o) (qualityLevel o)
    (performanceMetrics o) (optimizationSettings o) counter lastFrame fpsStart
    (renderTimeHistory o) (decodeTimeHistory o).

Definition withHistories (render decode : list Q) (o : Optimizer) : Optimizer :=
  mkOptimizer (frameRateTarget o) (memoryThreshold o) (bufferSize o) (qualityLevel o)
    (performanceMetrics o) (optimizationSettings o) (frameCounter o) (lastFrameTime o)
    (fpsStartTime o) render decode.

Definition withFrameSkipping (b : bool) (s : OptimizationSettings) : OptimizationSettings :=
  mkOptimizationSettings b (enableMemoryOptimization s) (enableQualityAdaptation s)
    (enableBufferOptimization s) (enableGPUAcceleration s).

Definition withGPUAcceleration (b : bool) (s : OptimizationSettings) : OptimizationSettings :=
  mkOptimizationSettings (enableFrameSkipping s) (enableMemoryOptimization s)
    (enableQualityAdaptation s) (enableBufferOptimization s) b.

Definition withAdaptation (memory quality : bool) (s : OptimizationSettings)
  : OptimizationSettings :=
  mkOptimizationSettings (enableFrameSkipping s) memory quality
    (enableBufferOptimization s) (enableGPUAcceleration s).

Definition withFps (x : JsNum) (p : PerformanceMetrics) : PerformanceMetrics :=
  mkPerformanceMetrics x (frameDrops p) (memoryUsage p) (cpuUsage p) (renderTime p)
    (decodeTime p).

Definition withMemoryUsage (x : Q) (p : PerformanceMetrics) : PerformanceMetrics :=
  mkPerformanceMetrics (fps p) (frameDrops p) x (cpuUsage p) (renderTime p) (decodeTime p).

Definition withRenderTime (x : Q) (p : PerformanceMetrics) : PerformanceMetrics :=
  mkPerformanceMetrics (fps p) (frameDrops p) (memoryUsage p) (cpuUsage p) x (decodeTime p).

Definition withDecodeTime (x : Q) (p : PerformanceMetrics) : PerformanceMetrics :=
  mkPerformanceMetrics (fps p) (frameDrops p) (memoryUsage p) (cpuUsage p) (renderTime p) x.

(** The fields as the constructor sets them before [init()]; the three
    fields of the frame counter are not yet defined then and are given
    the values [setupPerformanceMonitoring] writes first. *)
Definition constructed (b : Browser) : Optimizer :=
  mkOptimizer 30 (100 * 1024 * 1024) 30 qAuto
    (mkPerformanceMetrics (Num 0) 0 0 0 0 0)
    (mkOptimizationSettings true true true true true)
    0 (startedAt b) None [] [].

Definition detectHardwareCapabilities (b : Browser) (o : Optimizer) : Optimizer :=
  let o1 :=
    match rendererInfo b with
    | Some renderer =>
        if includes renderer "Tesla" || includes renderer "NVIDIA"
        then withFrameRateTarget 60
               (withOptimizationSettings (withGPUAcceleration true (optimizationSettings o)) o)
        else withFrameRateTarget 30 o
    | None => o
    end in
  let o2 :=
    match truthyNum (deviceMemory b) with
    | Some memoryGB =>
        if Qle_bool 8 memoryGB then withQualityLevel qHigh (withBufferSize 60 o1)
        else if Qle_bool 4 memoryGB then withQualityLevel qMedium (withBufferSize 30 o1)
        else withQualityLevel qLow (withBufferSize 15 o1)
    | None => o1
    end in
  match truthyNum (hardwareConcurrency b) with
  | Some cores =>
      if Qle_bool 8 cores
      then withOptimizationSettings (withFrameSkipping false (optimizationSettings o2)) o2
      else o2
  | None => o2
  end.

Definition setupPerformanceMonitoring (b : Browser) (o : Optimizer) : Optimizer :=
  withHistories [] [] (withFrames 0 (startedAt b) (fpsStartTime o) o).

Definition optimizeForTeslaHardware (b : Browser) (o : Optimizer) : Optimizer :=
  let ua := userAgent b in
  if includes ua "Tesla" || includes ua "QtCarBrowser" then
    let o1 :=
      withOptimizationSettings (withAdaptation true true (optimizationSettings o))
        (withBufferSize 20 (withFrameRateTarget 30 o)) in
    if includes ua "Model S" || includes ua "Model X"
    then withFrameRateTarget 60 (withQualityLevel qHigh o1)
    else if includes ua "Model 3" || includes ua "Model Y"
    then withFrameRateTarget 30 (withQualityLevel qMedium o1)
    else o1
  else o.

(** [init()], and [new TeslaPerformanceOptimizer()] as a whole. *)
Definition init (b : Browser) (o : Optimizer) : Optimizer :=
  optimizeForTeslaHardware b (setupPerformanceMonitoring b (detectHardwareCapabilities b o)).

Definition newOptimizer (b : Browser) : Optimizer := init b (constructed b).

(** [adaptFrameRate(currentFps)]. *)
Definition adaptFrameRate (currentFps : JsNum) (o : Optimizer) : Optimizer :=
  if negb (enableQualityAdaptation (optimizationSettings o)) then o
  else if numBelow currentFps (frameRateTarget o * 0.8) then
    match qualityLevel o with
    | qHigh => withQualityLevel qMedium o
    | qMedium => withQualityLevel qLow o
    | _ => o
    end
  else if numAbove currentFps (frameRateTarget o * 1.2) then
    match qualityLevel o with
    | qLow => withQualityLevel qMedium o
    | qMedium => withQualityLevel qHigh o
    | _ => o
    end
  else o.

(** [a / b] for a dividend that is positive. *)
Definition divPositive (a b : Q) : JsNum :=
  if Qeq_bool b 0 then PosInfinity else Num (a / b).

(** [shouldSkipFrame()] at time [currentTime]: the answer and the new
    state.  The quotient [1000 / this.frameRateTarget] is taken in [Q];
    the target is never zero ([frameRateTarget_values]). *)
Definition shouldSkipFrame (currentTime : Q) (o : Optimizer) : bool * Optimizer :=
  if negb (enableFrameSkipping (optimizationSettings o)) then (false, o)
  else
    let deltaTime := currentTime - lastFrameTime o in
    let targetFrameTime := 1000 / frameRateTarget o in
    if Qltb deltaTime (targetFrameTime * 0.8) then (true, o)
    else
      let counter := (frameCounter o + 1)%Z in
      let o1 := withFrames counter currentTime (fpsStartTime o) o in
      if (Z.rem counter 30 =? 0)%Z then
        let elapsed :=
          match fpsStartTime o with
          | Some started =>
              if Qeq_bool (currentTime - started) 0 then currentTime
              else currentTime - started
          | None => currentTime
          end in
        let fpsNow := divPositive 30000 elapsed in
        (false,
         adaptFrameRate fpsNow
           (withFrames counter currentTime (Some currentTime)
              (withPerformanceMetrics (withFps fpsNow (performanceMetrics o1)) o1)))
      else (false, o1).

(** [optimizeMemoryUsage()]; the garbage collection and
    [cleanupUnusedResources()] act on the page only. *)
Definition optimizeMemoryUsage (o : Optimizer) : Optimizer :=
  if negb (enableMemoryOptimization (optimizationSettings o)) then o
  else if Qltb (memoryThreshold o) (memoryUsage (performanceMetrics o))
  then withBufferSize (Qmax 10 (bufferSize o - 5)) o
  else o.

(** [(memoryUsage / memoryLimit) * 100 > 80], the quotient by zero being
    infinite or not a number. *)
Definition memoryPercentAbove80 (memoryUsed memoryLimit : Q) : bool :=
  if Qeq_bool memoryLimit 0 then Qltb 0 memoryUsed
  else Qltb 80 (memoryUsed / memoryLimit * 100).

(** [checkMemoryUsage()], [performance.memory] being absent or holding
    the used heap size and its limit. *)
Definition checkMemoryUsage (memory : option (Q * Q)) (o : Optimizer) : Optimizer :=
  match memory with
  | None => o
  | Some (memoryUsed, memoryLimit) =>
      if memoryPercentAbove80 memoryUsed memoryLimit then optimizeMemoryUsage o else o
  end.

(** The callback of the interval started by
    [setupPerformanceMonitoring]. *)
Definition memoryMonitorTick (memoryUsed memoryLimit : Q) (o : Optimizer) : Optimizer :=
  checkMemoryUsage (Some (memoryUsed, memoryLimit))
    (withPerformanceMetrics (withMemoryUsage memoryUsed (performanceMetrics o)) o).

Definition triggerPerformanceOptimization (o : Optimizer) : Optimizer :=
  let o1 :=
    match qualityLevel o with
    | qHigh => withQualityLevel qMedium o
    | qMedium => withQualityLevel qLow o
    | _ => o
    end in
  let o2 := withBufferSize (Qmax 10 (bufferSize o1 - 5)) o1 in
  let o3 := withOptimizationSettings (withFrameSkipping true (optimizationSettings o2)) o2 in
  optimizeMemoryUsage o3.

(** [history.reduce((a, b) => a + b, 0) / history.length]. *)
Definition average (history : list Q) : Q :=
  fold_left Qplus history 0 / inject_Z (Z.of_nat (length history)).

Definition recordRenderTime (startTime endTime : Q) (o : Optimizer) : Optimizer :=
  let history := limitLength 100 (renderTimeHistory o ++ [endTime - startTime]) in
  let avgRenderTime := average history in
  let o1 :=
    withPerformanceMetrics (withRenderTime avgRenderTime (performanceMetrics o))
      (withHistories history (decodeTimeHistory o) o) in
  if Qltb 16.67 avgRenderTime then triggerPerformanceOptimization o1 else o1.

Definition recordDecodeTime (startTime endTime : Q) (o : Optimizer) : Optimizer :=
  let history := limitLength 100 (decodeTimeHistory o ++ [endTime - startTime]) in
  withPerformanceMetrics (withDecodeTime (average history) (performanceMetrics o))
    (withHistories (renderTimeHistory o) history o).

Definition destroy (o : Optimizer) : Optimizer := withHistories [] [] o.

(** [getOptimizationRecommendations()]. *)
Definition getOptimizationRecommendations (o : Optimizer) : list string :=
  (if numBelow (fps (performanceMetrics o)) (frameRateTarget o * 0.8)
   then ["帧率过低，建议降低画质或减少缓冲区大小"] else [])
  ++ (if Qltb (memoryThreshold o) (memoryUsage (performanceMetrics o))
      then ["内存使用过高，建议清理缓存或减少缓冲区"] else [])
  ++ (if Qltb 16.67 (renderTime (performanceMetrics o))
      then ["渲染时间过长，建议启用GPU加速或降低分辨率"] else [])
  ++ (if Qltb 10 (decodeTime (performanceMetrics o))
      then ["解码时间过长，建议使用硬件解码或降低码率"] else []).

(** The configuration returned by [optimizeVideoDecoding(decoder)] for a
    decoder that is there; the three limits are absent for ['auto']. *)
Record DecoderConfig := mkDecoderConfig {
  enableWorker : bool;
  decoderBufferSize : Q;
  maxBufferLength : Q;
  enableHardwareAcceleration : bool;
  targetBitrate : option Q;
  maxWidth : option Q;
  maxHeight : option Q
}.

Definition optimizeVideoDecoding (o : Optimizer) : DecoderConfig :=
  let config := mkDecoderConfig true (bufferSize o) (bufferSize o * 2)
                  (enableGPUAcceleration (optimizationSettings o)) in
  match qualityLevel o with
  | qHigh => config (Some 5000000) (Some 1920) (Some 1080)
  | qMedium => config (Some 2500000) (Some 1280) (Some 720)
  | qLow => config (Some 1000000) (Some 854) (Some 480)
  | qAuto => config None None None
  end.

(** The calls that change an optimizer once it is built. *)
Inductive OptimizerCall : Type :=
| CallShouldSkipFrame (currentTime : Q)
| CallAdaptFrameRate (currentFps : JsNum)
| CallOptimizeMemoryUsage
| CallCheckMemoryUsage (memory : option (Q * Q))
| MemoryMonitorTick (memoryUsed memoryLimit : Q)
| CallRecordRenderTime (startTime endTime : Q)
| CallRecordDecodeTime (startTime endTime : Q)
| CallTriggerPerformanceOptimization
| CallDestroy.

Definition perform (o : Optimizer) (c : OptimizerCall) : Optimizer :=
  match c with
  | CallShouldSkipFrame currentTime => snd (shouldSkipFrame currentTime o)
  | CallAdaptFrameRate currentFps => adaptFrameRate currentFps o
  | CallOptimizeMemoryUsage => optimizeMemoryUsage o
  | CallCheckMemoryUsage memory => checkMemoryUsage memory o
  | MemoryMonitorTick memoryUsed memoryLimit => memoryMonitorTick memoryUsed memoryLimit o
  | CallRecordRenderTime startTime endTime => recordRenderTime startTime endTime o
  | CallRecordDecodeTime startTime endTime => recordDecodeTime startTime endTime o
  | CallTriggerPerformanceOptimization => triggerPerformanceOptimization o
  | CallDestroy => destroy o
  end.

Definition performAll (cs : list OptimizerCall) (o : Optimizer) : Optimizer :=
  fold_left perform cs o.

(** The frames of a sequence of calls of [shouldSkipFrame] that are not
    skipped, by the time of the call. *)
Fixpoint acceptedFrames (times : list Q) (o : Optimizer) : list Q :=
  match times with
  | [] => []
  | currentTime :: rest =>
      if fst (shouldSkipFrame currentTime o)
      then acceptedFrames rest (snd (shouldSkipFrame currentTime o))
      else currentTime :: acceptedFrames rest (snd (shouldSkipFrame currentTime o))
  end.

(** Two neighbours of the list are always at least [gap] apart. *)
Fixpoint spaced (gap : Q) (l : list Q) : Prop :=
  match l with
  | x :: (y :: _) as rest => x + gap <= y /\ spaced gap rest
  | _ => True
  end.

Definition isTesla (b : Browser) : bool :=
  includes (userAgent b) "Tesla" || includes (userAgent b) "QtCarBrowser".

Definition isModelSX (b : Browser) : bool :=
  includes (userAgent b) "Model S" || includes (userAgent b) "Model X".

Definition isModel3Y (b : Browser) : bool :=
  includes (userAgent b) "Model 3" || includes (userAgent b) "Model Y".

(** Browsers used in the examples. *)
Definition desktopBrowser : Browser :=
  mkBrowser (Some "ANGLE (Intel, Mesa)") None (Some 4)
            "Mozilla/5.0 (X11; Linux x86_64) Chrome/120.0" 1000.

Definition teslaModel3Browser : Browser :=
  mkBrowser None (Some 8) (Some 4)
            "Mozilla/5.0 (X11; GNU/Linux) Chromium/88 Tesla/2023.44 Model 3" 1000.

(** Renderings that take at most the 16.67 ms of a frame at 60 frames
    per second. *)
Definition inTime (duration : Q) : Prop := duration <= 16.67.

Definition renderCalls (samples : list (Q * Q)) : list OptimizerCall :=
  map (fun sample => CallRecordRenderTime (fst sample) (snd sample)) samples.

(** ** The report of the manager *)

(** [rates[name] || 0]. *)
Definition rateOrZero (rates : gmap string Q) (n : string) : Q :=
  match rates !! n with
  | Some r => if Qeq_bool r 0 then 0 else r
  | None => 0
  end.

(** The object returned by [getPerformanceReport()]; an entry of
    [methodAvailability] holds the name, the availability and the
    success rate. *)
Record PerformanceReport := mkPerformanceReport {
  reportedMethod : option Method;
  reportedDevice : option (gmap string bool);
  reportedNetwork : option NetworkInfo;
  reportedMetrics : Metrics;
  reportedHistory : list AttemptRecord;
  methodAvailability : list (string * bool * Q)
}.

Definition getPerformanceReport (st : Manager) : PerformanceReport :=
  mkPerformanceReport (currentMethod st) (deviceInfo st) (networkInfo st) (metrics st)
    (sliceLast 10 (attemptHistory st))
    (map (fun m => (name m, available m, rateOrZero (successRate (metrics st)) (name m)))
         (methods st)).

(** ** The quality ladder of the optimizer *)

Definition qualityRank (q : QualityLevel) : Z :=
  match q with
  | qHigh => 2
  | qMedium => 1
  | qLow => 0
  | qAuto => 0
  end.

(** The calls that measure or report a frame rate. *)
Definition measuresFrameRate (c : OptimizerCall) : bool :=
  match c with
  | CallShouldSkipFrame _ => true
  | CallAdaptFrameRate _ => true
  | _ => false
  end.

Definition frameCalls (cs : list OptimizerCall) : nat :=
  length (List.filter (fun c => match c with CallShouldSkipFrame _ => true | _ => false end) cs).

(** * Properties *)

(** ** The sort *)

Section SortFacts.

Context {A : Type}.
Variable cmp : A -> A -> Q.

Lemma sortInsert_Permutation (x : A) (l : list A) :
  Permutation (sortInsert cmp x l) (x :: l).
Proof.
  induction l as [|y l IH]; simpl.
  - reflexivity.
  - destruct (Qle_bool (cmp x y) 0).
    + reflexivity.
    + rewrite IH. apply perm_swap.
Qed.

Lemma jsSort_Permutation (l : list A) : Permutation (jsSort cmp l) l.
Proof.
  induction l as [|x l IH]; simpl.
  - reflexivity.
  - rewrite sortInsert_Permutation. now constructor.
Qed.

Lemma jsSort_length (l : list A) : length (jsSort cmp l) = length l.
Proof. apply Permutation_length, jsSort_Permutation. Qed.

Lemma jsSort_In (x : A) (l : list A) : In x (jsSort cmp l) <-> In x l.
Proof.
  split; apply Permutation_in;
    [apply jsSort_Permutation | symmetry; apply jsSort_Permutation].
Qed.

(** Comparators that compare a numeric key. *)
Variable key : A -> Q.
Hypothesis cmp_key : forall a b, cmp a b <= 0 <-> key a <= key b.

Local Abbreviation keyLe := (keyLe key).
Local Abbreviation inClass := (inClass key).

Lemma sortInsert_sorted (x : A) (l : list A) :
  StronglySorted keyLe l -> StronglySorted keyLe (sortInsert cmp x l).
Proof.
  induction 1 as [|y l Hl IH Hy]; simpl.
  - repeat constructor.
  - destruct (Qle_bool (cmp x y) 0) eqn:E.
    + apply Qle_bool_iff, cmp_key in E.
      constructor; [now constructor|].
      constructor; [exact E|].
      eapply List.Forall_impl; [|exact Hy].
      intros z Hz. unfold keyLe in *. now apply Qle_trans with (key y).
    + assert (Hyx : key y <= key x).
      { destruct (Qlt_le_dec (key x) (key y)) as [Hlt|Hle]; [|exact Hle].
        exfalso. apply Qlt_le_weak, cmp_key, Qle_bool_iff in Hlt. congruence. }
      constructor; [exact IH|].
      eapply Permutation_Forall; [symmetry; apply sortInsert_Permutation|].
      now constructor.
Qed.

Lemma jsSort_sorted (l : list A) : StronglySorted keyLe (jsSort cmp l).
Proof.
  induction l as [|x l IH]; simpl; [constructor | now apply sortInsert_sorted].
Qed.

(** Stability: the elements of one key class keep their order. *)
Lemma sortInsert_class (k : Q) (x : A) (l : list A) :
  List.filter (inClass k) (sortInsert cmp x l) = List.filter (inClass k) (x :: l).
Proof.
  induction l as [|y l IH]; [reflexivity|].
  cbn [sortInsert]. destruct (Qle_bool (cmp x y) 0) eqn:E; [reflexivity|].
  cbn [List.filter] in *. rewrite IH.
  destruct (inClass k x) eqn:Ex, (inClass k y) eqn:Ey; try reflexivity.
  exfalso. unfold inClass in *. apply Qeq_bool_iff in Ex, Ey.
  assert (Hle : key x <= key y) by (rewrite Ex, Ey; apply Qle_refl).
  apply cmp_key, Qle_bool_iff in Hle. congruence.
Qed.

Lemma jsSort_class (k : Q) (l : list A) :
  List.filter (inClass k) (jsSort cmp l) = List.filter (inClass k) l.
Proof.
  induction l as [|x l IH]; [reflexivity|].
  cbn [jsSort]. rewrite sortInsert_class. cbn [List.filter]. now rewrite IH.
Qed.

End SortFacts.

(** ** Metrics *)

Lemma rateOrDefault_within (rates : gmap string Q) (n : string) :
  ratesWithin rates -> 0 <= rateOrDefault rates n /\ rateOrDefault rates n <= 1.
Proof.
  intros H. unfold rateOrDefault.
  destruct (rates !! n) as [r|] eqn:E.
  - destruct (Qeq_bool r 0); [split; lra | exact (H n r E)].
  - split; lra.
Qed.

Lemma bumpSuccessRate_within (n : string) (rates : gmap string Q) :
  ratesWithin rates -> ratesWithin (bumpSuccessRate n rates).
Proof.
  intros H k r. unfold bumpSuccessRate. rewrite lookup_insert.
  destruct (decide (n = k)) as [->|]; [|apply H].
  intros [= <-]. destruct (rateOrDefault_within rates k H) as [H0 H1].
  destruct (Q.min_spec 1 (rateOrDefault rates k + 0.1)) as [[Hc ->]|[Hc ->]]; split; lra.
Qed.

Lemma dropSuccessRate_within (n : string) (rates : gmap string Q) :
  ratesWithin rates -> ratesWithin (dropSuccessRate n rates).
Proof.
  intros H k r. unfold dropSuccessRate. rewrite lookup_insert.
  destruct (decide (n = k)) as [->|]; [|apply H].
  intros [= <-]. destruct (rateOrDefault_within rates k H) as [H0 H1].
  destruct (Q.max_spec 0 (rateOrDefault rates k - 0.1)) as [[Hc ->]|[Hc ->]]; split; lra.
Qed.

Lemma record_within (st : Manager) (r : Recorded) :
  ratesWithin (successRate (metrics st)) ->
  ratesWithin (successRate (metrics (record st r))).
Proof.
  destruct r; simpl; [apply bumpSuccessRate_within | apply dropSuccessRate_within].
Qed.

Lemma recordAll_within (rs : list Recorded) (st : Manager) :
  ratesWithin (successRate (metrics st)) ->
  ratesWithin (successRate (metrics (recordAll rs st))).
Proof.
  revert st. induction rs as [|r rs IH]; intros st H; [exact H|].
  simpl. apply IH, record_within, H.
Qed.

Lemma recordSuccess_rate (st : Manager) (m : Method) (time dateNow : Q) :
  successRate (metrics (recordSuccess m time dateNow st)) !! name m
  = Some (Qmin 1 (rateOrDefault (successRate (metrics st)) (name m) + 0.1)).
Proof. simpl. unfold bumpSuccessRate. apply lookup_insert_eq. Qed.

Lemma recordFailure_rate (st : Manager) (m : Method) (e : JsError) (time dateNow : Q) :
  successRate (metrics (recordFailure m e time dateNow st)) !! name m
  = Some (Qmax 0 (rateOrDefault (successRate (metrics st)) (name m) - 0.1)).
Proof. simpl. unfold dropSuccessRate. apply lookup_insert_eq. Qed.

Lemma rateOrDefault_unseen (rates : gmap string Q) (n : string) :
  rates !! n = None -> rateOrDefault rates n = 0.5.
Proof. intros H. unfold rateOrDefault. now rewrite H. Qed.

Lemma rateOrDefault_stored (rates : gmap string Q) (n : string) (old : Q) :
  rates !! n = Some old -> ~ old == 0 -> rateOrDefault rates n = old.
Proof.
  intros H Hz. unfold rateOrDefault. rewrite H.
  destruct (Qeq_bool old 0) eqn:E; [|reflexivity].
  now apply Qeq_bool_iff in E.
Qed.

(** C3, as the specification words it, fails on the code: after the first
    observation of a strategy the stored rate is 0.6 after a success and
    0.4 after a failure, not the values 0.55 and 0.45 of the moving
    average with alpha 0.1. *)
Lemma successRate_first_update_is_not_ema :
  (exists r, successRate (metrics (recordSuccess direct 0 0 newManager)) !! "direct" = Some r
             /\ r == 0.6 /\ specEma 0.1 0.5 1 == 0.55 /\ ~ r == specEma 0.1 0.5 1)
  /\ (exists r, successRate (metrics (recordFailure direct timeoutError 0 0 newManager))
                  !! "direct" = Some r
                /\ r == 0.4 /\ specEma 0.1 0.5 0 == 0.45 /\ ~ r == specEma 0.1 0.5 0).
Proof.
  split; eexists; (split; [reflexivity|]); repeat split; try reflexivity;
    intros H; vm_compute in H; discriminate H.
Qed.

(** C3, amended: the update is additive.  A success stores
    [min(1, old + 0.1)] and a failure [max(0, old - 0.1)], where [old] is
    0.5 for a strategy not seen before and the stored rate when that is
    not zero; so the first success gives 0.6 and the first failure 0.4.
    Whatever is recorded, in any order, every stored rate stays within
    [0,1]. *)
Theorem successRate_additive_update :
  (forall st m e time dateNow,
      successRate (metrics st) !! name m = None ->
      (exists r, successRate (metrics (recordSuccess m time dateNow st)) !! name m = Some r
                 /\ r == 0.6)
      /\ (exists r, successRate (metrics (recordFailure m e time dateNow st)) !! name m = Some r
                    /\ r == 0.4))
  /\ (forall st m e time dateNow old,
         successRate (metrics st) !! name m = Some old -> ~ old == 0 ->
         successRate (metrics (recordSuccess m time dateNow st)) !! name m
         = Some (Qmin 1 (old + 0.1))
         /\ successRate (metrics (recordFailure m e time dateNow st)) !! name m
            = Some (Qmax 0 (old - 0.1)))
  /\ (forall rs st,
         ratesWithin (successRate (metrics st)) ->
         ratesWithin (successRate (metrics (recordAll rs st))))
  /\ (forall rs st, ratesWithin (successRate (metrics (recordAll rs (resetMetrics st))))).
Proof.
  split; [|split; [|split]].
  - intros st m e time dateNow Hnone. split; eexists.
    + split; [apply recordSuccess_rate|].
      rewrite (rateOrDefault_unseen _ _ Hnone). reflexivity.
    + split; [apply recordFailure_rate|].
      rewrite (rateOrDefault_unseen _ _ Hnone). reflexivity.
  - intros st m e time dateNow old Hold Hnz. split.
    + rewrite recordSuccess_rate. now rewrite (rateOrDefault_stored _ _ _ Hold Hnz).
    + rewrite recordFailure_rate. now rewrite (rateOrDefault_stored _ _ _ Hold Hnz).
  - exact recordAll_within.
  - intros rs st. apply recordAll_within. intros n r. simpl. now rewrite lookup_empty.
Qed.

(** The amended statement at work: a stored rate of 0.95 is capped at 1 by
    a success, and the rates stay within bounds along a mixed run. *)
Lemma successRate_additive_update_witness :
  successRate (metrics (recordSuccess direct 0 0
     (setMetrics [] (mkMetrics [] 0 {[ "direct" := 0.95 ]}) newManager))) !! "direct"
  = Some (Qmin 1 (0.95 + 0.1))
  /\ ratesWithin (successRate (metrics (recordAll
        [Succeeded direct 0 0; Failed proxy timeoutError 0 0; Failed proxy timeoutError 0 0]
        (setMetrics [] (mkMetrics [] 0 {[ "direct" := 0.95 ]}) newManager)))).
Proof.
  split.
  - refine (proj1 (proj1 (proj2 successRate_additive_update)
                      (setMetrics [] (mkMetrics [] 0 {[ "direct" := 0.95 ]}) newManager)
                      direct timeoutError 0 0 0.95 _ _)).
    + reflexivity.
    + intros H; vm_compute in H; discriminate H.
  - refine (proj1 (proj2 (proj2 successRate_additive_update)) _ _ _).
    intros n r. simpl. rewrite lookup_singleton.
    destruct (decide ("direct" = n)); [|discriminate].
    intros [= <-]. split; intros H; vm_compute in H; discriminate H.
Defined.

(** *** The attempt history and the error rate *)

Lemma limitLength_Forall {A : Type} (P : A -> Prop) (bound : nat) (l : list A) :
  Forall P l -> Forall P (limitLength bound l).
Proof.
  intros H. unfold limitLength. destruct (bound <? length l)%nat; [|exact H].
  destruct H; simpl; [constructor | assumption].
Qed.

Lemma record_onlyFailures (st : Manager) (r : Recorded) :
  onlyFailures (attemptHistory st) -> onlyFailures (attemptHistory (record st r)).
Proof.
  intros H. destruct r; simpl; [exact H|].
  apply limitLength_Forall, Forall_app. split; [exact H | now repeat constructor].
Qed.

Lemma recordAll_onlyFailures (rs : list Recorded) (st : Manager) :
  onlyFailures (attemptHistory st) -> onlyFailures (attemptHistory (recordAll rs st)).
Proof.
  revert st. induction rs as [|r rs IH]; intros st H; [exact H|].
  simpl. apply IH, record_onlyFailures, H.
Qed.

Lemma record_errorRate (st : Manager) (r : Recorded) :
  errorRate (metrics (record st r)) = computeErrorRate (attemptHistory (record st r)).
Proof. destruct r; reflexivity. Qed.

Lemma filter_failures (l : list AttemptRecord) :
  onlyFailures l -> List.filter (fun attempt => negb (h_success attempt)) l = l.
Proof.
  induction 1 as [|a l Ha _ IH]; [reflexivity|].
  simpl. rewrite Ha. simpl. now rewrite IH.
Qed.

Lemma sliceLast_length {A : Type} (n : nat) (l : list A) :
  length (sliceLast n l) = Nat.min n (length l).
Proof. unfold sliceLast. rewrite length_skipn. lia. Qed.

Lemma computeErrorRate_onlyFailures (history : list AttemptRecord) :
  onlyFailures history ->
  computeErrorRate history == match history with [] => 0 | _ :: _ => 1 end.
Proof.
  intros H. unfold computeErrorRate.
  assert (Hrecent : onlyFailures (sliceLast 20 history)).
  { unfold sliceLast, onlyFailures. now apply Forall_drop. }
  rewrite (filter_failures _ Hrecent).
  pose proof (sliceLast_length 20 history) as Hlen.
  destruct history as [|a history].
  - reflexivity.
  - simpl length in Hlen.
    destruct (Nat.ltb_spec 0 (length (sliceLast 20 (a :: history)))) as [Hpos|Hzero]; [|lia].
    apply Qmult_inv_r. unfold Qeq. simpl. lia.
Qed.

(** C10: a success never touches the attempt history (it is pushed on
    the connection-time list); so, from a new or reset manager and after
    every recorded attempt, whatever the sequence of successes and
    failures, the history holds failure records only and the error rate is
    exactly 1 when the history is not empty and 0 when it is. *)
Theorem errorRate_is_one_on_nonempty_history :
  (forall st m time dateNow,
      attemptHistory (recordSuccess m time dateNow st) = attemptHistory st
      /\ connectionTime (metrics (recordSuccess m time dateNow st))
         = limitLength 100
             (connectionTime (metrics st) ++ [mkConnectionRecord (name m) time dateNow]))
  /\ (forall st0 rs r,
         let st := recordAll (rs ++ [r]) (resetMetrics st0) in
         onlyFailures (attemptHistory st)
         /\ errorRate (metrics st)
            == match attemptHistory st with [] => 0 | _ :: _ => 1 end).
Proof.
  split; [now intros|].
  intros st0 rs r st.
  assert (H : onlyFailures (attemptHistory st)).
  { apply recordAll_onlyFailures. constructor. }
  split; [exact H|].
  subst st. unfold recordAll in *. rewrite fold_left_app in *. cbn [fold_left] in *.
  rewrite record_errorRate. now apply computeErrorRate_onlyFailures.
Qed.

(** ** Selection *)

Lemma StronglySorted_weaken {A : Type} (R R' : A -> A -> Prop) (l : list A) :
  (forall a b, R a b -> R' a b) -> StronglySorted R l -> StronglySorted R' l.
Proof.
  intros HR. induction 1 as [|x l Hl IH Hx]; constructor; [exact IH|].
  eapply List.Forall_impl; [|exact Hx]. intros b. apply HR.
Qed.

Lemma StronglySorted_filter {A : Type} (R : A -> A -> Prop) (f : A -> bool) (l : list A) :
  StronglySorted R l -> StronglySorted R (List.filter f l).
Proof.
  induction 1 as [|x l Hl IH Hx]; simpl; [constructor|].
  destruct (f x); [|exact IH].
  constructor; [exact IH|].
  apply List.Forall_forall. intros y Hy. apply List.filter_In in Hy.
  rewrite List.Forall_forall in Hx. now apply Hx.
Qed.

Lemma filter_both {A : Type} (f g : A -> bool) (l : list A) :
  List.filter (fun x => f x && g x) l = List.filter g (List.filter f l).
Proof.
  induction l as [|x l IH]; [reflexivity|].
  simpl. destruct (f x); simpl; [destruct (g x)|]; now rewrite IH.
Qed.

Lemma filter_swap {A : Type} (f g : A -> bool) (l : list A) :
  List.filter g (List.filter f l) = List.filter f (List.filter g l).
Proof.
  rewrite <- !filter_both. apply List.filter_ext. intros x. apply andb_comm.
Qed.

Lemma filter_of_map {A B : Type} (f : B -> bool) (g : A -> B) (l : list A) :
  List.filter f (map g l) = map g (List.filter (fun x => f (g x)) l).
Proof.
  induction l as [|x l IH]; [reflexivity|].
  simpl. destruct (f (g x)); simpl; now rewrite IH.
Qed.

(** In a list sorted by [R], an element that [R] does not put after
    another one stands before it. *)
Lemma sorted_before {A : Type} (R : A -> A -> Prop) (a b : A) (l : list A) :
  StronglySorted R l -> In a l -> In b l -> ~ R b a -> (forall x, R x x) ->
  before a b l.
Proof.
  intros Hs Ha Hb Hnot Hrefl.
  induction Hs as [|x l Hl IH Hx]; [destruct Ha|].
  rewrite List.Forall_forall in Hx.
  destruct Ha as [->|Ha], Hb as [->|Hb].
  - destruct Hnot. apply Hrefl.
  - apply List.in_split in Hb as (l2 & l3 & ->). now exists [], l2, l3.
  - destruct Hnot. now apply Hx.
  - destruct (IH Ha Hb) as (l1 & l2 & l3 & ->). now exists (x :: l1), l2, l3.
Qed.

Lemma byPriority_key (a b : Method) :
  byPriority a b <= 0 <-> inject_Z (priority a) <= inject_Z (priority b).
Proof.
  unfold byPriority. rewrite <- Zle_Qle. unfold Qle. simpl. lia.
Qed.

Lemma byScore_key (st : Manager) (a b : Method) :
  byScore st a b <= 0 <-> - score st a <= - score st b.
Proof. unfold byScore. split; intros H; lra. Qed.

Lemma priorityClass_eqb (p : Z) (m : Method) :
  inClass (fun m => inject_Z (priority m)) (inject_Z p) m = (priority m =? p)%Z.
Proof.
  unfold inClass. destruct (Z.eqb_spec (priority m) p) as [->|Hne].
  - apply Qeq_bool_iff. reflexivity.
  - apply not_true_is_false. intros H. apply Qeq_bool_iff in H.
    apply Hne. unfold Qeq in H. simpl in H. lia.
Qed.

Lemma scoreClass_eqb (st : Manager) (k : Q) (m : Method) :
  inClass (fun m => - score st m) (- k) m = Qeq_bool (score st m) k.
Proof.
  unfold inClass. destruct (Qeq_bool (score st m) k) eqn:E.
  - apply Qeq_bool_iff in E. apply Qeq_bool_iff. now rewrite E.
  - apply not_true_is_false. intros H. apply Qeq_bool_iff in H.
    apply Qeq_bool_neq in E. apply E. lra.
Qed.

Lemma optimizedMethod_name (s : SpeedCategory) (m : Method) :
  name (optimizedMethod s m) = name m.
Proof. now destruct s. Qed.

Lemma optimizedMethod_priority (s : SpeedCategory) (m : Method) :
  priority (optimizedMethod s m) = priority m.
Proof. now destruct s. Qed.

Lemma optimizedMethod_score (st : Manager) (s : SpeedCategory) (m : Method) :
  score st (optimizedMethod s m) = score st m.
Proof. unfold score. now rewrite optimizedMethod_name, optimizedMethod_priority. Qed.

Lemma optimizedMethod_Unknown (l : list Method) : map (optimizedMethod Unknown) l = l.
Proof. induction l as [|m l IH]; simpl; [reflexivity | now rewrite IH]. Qed.

Lemma speed_without_networkInfo (st : Manager) :
  networkInfo st = None -> getNetworkSpeedCategory st = Unknown.
Proof. intros H. unfold getNetworkSpeedCategory. now rewrite H. Qed.

(** The list handed to [optimizeMethodsByHistory]. *)
Lemma byNetwork_Permutation (st : Manager) :
  Permutation (optimizeMethodsByNetwork st (availableMethods st)) (adjustedMethods st).
Proof.
  unfold optimizeMethodsByNetwork, availableMethods, adjustedMethods.
  destruct (networkInfo st) eqn:E.
  - rewrite jsSort_Permutation. apply Permutation_map, jsSort_Permutation.
  - rewrite (speed_without_networkInfo st E), optimizedMethod_Unknown.
    apply jsSort_Permutation.
Qed.

Lemma byNetwork_sorted (st : Manager) :
  getNetworkSpeedCategory st <> Slow ->
  StronglySorted priorityAscending (optimizeMethodsByNetwork st (availableMethods st)).
Proof.
  intros Hs.
  apply StronglySorted_weaken with (R := keyLe (fun m => inject_Z (priority m))).
  { intros a b. unfold keyLe, priorityAscending. now rewrite <- Zle_Qle. }
  unfold optimizeMethodsByNetwork, availableMethods.
  destruct (networkInfo st).
  - destruct (getNetworkSpeedCategory st); try contradiction;
      apply jsSort_sorted, byPriority_key.
  - apply jsSort_sorted, byPriority_key.
Qed.

Lemma byNetwork_priorityClass (st : Manager) (p : Z) :
  getNetworkSpeedCategory st <> Slow ->
  List.filter (fun m => (priority m =? p)%Z) (optimizeMethodsByNetwork st (availableMethods st))
  = List.filter (fun m => (priority m =? p)%Z) (adjustedMethods st).
Proof.
  intros Hs.
  assert (Hsort : forall l,
    List.filter (fun m => (priority m =? p)%Z) (jsSort byPriority l)
    = List.filter (fun m => (priority m =? p)%Z) l).
  { intros l.
    rewrite <- (List.filter_ext _ _ (priorityClass_eqb p)).
    rewrite <- (List.filter_ext _ _ (priorityClass_eqb p) l).
    apply jsSort_class, byPriority_key. }
  unfold optimizeMethodsByNetwork, availableMethods, adjustedMethods.
  destruct (networkInfo st) eqn:E.
  - assert (Hcmp : forall l,
      List.filter (fun m => (priority m =? p)%Z)
        (jsSort match getNetworkSpeedCategory st with
                | Slow => byLightweightOrder | _ => byPriority end l)
      = List.filter (fun m => (priority m =? p)%Z) l).
    { intros l. destruct (getNetworkSpeedCategory st); try contradiction; apply Hsort. }
    rewrite Hcmp, !filter_of_map. f_equal.
    assert (Hext : forall l,
      List.filter
        (fun m => (priority (optimizedMethod (getNetworkSpeedCategory st) m) =? p)%Z) l
      = List.filter (fun m => (priority m =? p)%Z) l).
    { intros l. apply List.filter_ext. intros m. now rewrite optimizedMethod_priority. }
    rewrite !Hext. apply Hsort.
  - rewrite (speed_without_networkInfo st E), optimizedMethod_Unknown. apply Hsort.
Qed.

Lemma finalMethods_Permutation (st : Manager) :
  Permutation (finalMethods st) (adjustedMethods st).
Proof.
  unfold finalMethods, optimizeMethodsByHistory.
  rewrite jsSort_Permutation. apply byNetwork_Permutation.
Qed.

Lemma finalMethods_length (st : Manager) :
  length (finalMethods st) = length (availableMethods st).
Proof.
  rewrite (Permutation_length (finalMethods_Permutation st)).
  unfold adjustedMethods, availableMethods. now rewrite length_map, jsSort_length.
Qed.

Lemma finalMethods_sorted (st : Manager) :
  StronglySorted (scoreDescending st) (finalMethods st).
Proof.
  apply StronglySorted_weaken with (R := keyLe (fun m => - score st m)).
  { intros a b. unfold keyLe, scoreDescending. lra. }
  apply jsSort_sorted, byScore_key.
Qed.

Lemma finalMethods_scoreClass (st : Manager) (k : Q) :
  List.filter (fun m => Qeq_bool (score st m) k) (finalMethods st)
  = List.filter (fun m => Qeq_bool (score st m) k)
      (optimizeMethodsByNetwork st (availableMethods st)).
Proof.
  unfold finalMethods, optimizeMethodsByHistory.
  rewrite <- (List.filter_ext _ _ (scoreClass_eqb st k)).
  rewrite <- (List.filter_ext _ _ (scoreClass_eqb st k)
                (optimizeMethodsByNetwork st (availableMethods st))).
  apply jsSort_class, byScore_key.
Qed.

Lemma checkRequirements_device (d : option (gmap string bool)) (reqs : list string)
    (r : string) :
  checkRequirements d reqs = true -> In r reqs ->
  r = "webrtc_support" \/ r = "websocket_support" ->
  capability d r = true.
Proof.
  induction reqs as [|requirement rest IH]; [intros _ []|].
  cbn [checkRequirements]. intros Hcheck Hin Hr.
  destruct (String.eqb_spec requirement "webrtc_support") as [->|Hw].
  - destruct (capability d "webrtc_support") eqn:E; [|discriminate].
    destruct Hin as [<-|Hin]; [exact E | now apply IH].
  - destruct (String.eqb_spec requirement "websocket_support") as [->|Hs].
    + destruct (capability d "websocket_support") eqn:E; [|discriminate].
      destruct Hin as [<-|Hin]; [exact E | now apply IH].
    + destruct Hin as [<-|Hin]; [|now apply IH].
      destruct Hr; contradiction.
Qed.

Lemma optimizedMethod_requirements (s : SpeedCategory) (m : Method) :
  requirements (optimizedMethod s m) = requirements m.
Proof. now destruct s. Qed.

Lemma finalMethods_origin (st : Manager) (m : Method) :
  In m (finalMethods st) ->
  exists m0, In m0 (methods st) /\ available m0 = true
             /\ m = optimizedMethod (getNetworkSpeedCategory st) m0.
Proof.
  intros Hin.
  apply (Permutation_in _ (finalMethods_Permutation st)) in Hin.
  unfold adjustedMethods in Hin. apply List.in_map_iff in Hin as (m0 & <- & Hin).
  apply List.filter_In in Hin as [Hin Hav]. now exists m0.
Qed.

(** What the detection does enforce: a selected method never requires a
    device capability (WebRTC, WebSocket) that the device lacks. *)
Lemma device_requirements_enforced (st : Manager) (m : Method) (r : string) :
  In m (finalMethods (detectMethodAvailability st)) ->
  In r (requirements m) ->
  r = "webrtc_support" \/ r = "websocket_support" ->
  capability (deviceInfo st) r = true.
Proof.
  intros Hin Hr Hdev.
  apply finalMethods_origin in Hin as (m0 & Hin & Hav & ->).
  rewrite optimizedMethod_requirements in Hr.
  cbn [detectMethodAvailability setMethods methods] in Hin.
  apply List.in_map_iff in Hin as (m1 & <- & _).
  cbn [setAvailable available requirements] in Hav, Hr.
  exact (checkRequirements_device _ _ _ Hav Hr Hdev).
Qed.

(** C1 fails on the code, against the comment of the network sort
    ("on a slow network, prefer the lighter methods"): on a slow network
    [optimizeMethodsByNetwork] does produce the lightweight-first order,
    but [optimizeMethodsByHistory] then sorts the list again by score, and
    with no history at all the final order is the priority order, the
    reverse of the override. *)
Theorem slow_network_order_follows_score :
  getNetworkSpeedCategory (detected "2g") = Slow
  /\ specLightweightFirst (detected "2g") = ["direct"; "proxy"; "transcode"; "webrtc"]
  /\ map name (optimizeMethodsByNetwork (detected "2g") (availableMethods (detected "2g")))
     = specLightweightFirst (detected "2g")
  /\ map name (finalMethods (detected "2g")) = ["webrtc"; "proxy"; "transcode"; "direct"]
  /\ map name (finalMethods (detected "2g")) <> specLightweightFirst (detected "2g").
Proof. repeat split; try (vm_compute; reflexivity). vm_compute. discriminate. Qed.

(** C4 fails on the code, against the comment of the ['proxy_server']
    case ("the proxy server should be checked here; true for now"): only
    ['webrtc_support'] and ['websocket_support'] are tested.  On a device
    without WebRTC, [webrtc] is left out, but [proxy] and [transcode] are
    offered, and [proxy] is selected, although neither ['proxy_server']
    nor ['ffmpeg_support'] is a capability of the device. *)
Theorem proxy_offered_without_proxy_server :
  In "proxy_server" (requirements proxy)
  /\ In "ffmpeg_support" (requirements transcode)
  /\ capability (deviceInfo (detectedOn noWebrtcDevice "4g")) "proxy_server" = false
  /\ capability (deviceInfo (detectedOn noWebrtcDevice "4g")) "ffmpeg_support" = false
  /\ map name (finalMethods (detectedOn noWebrtcDevice "4g")) = ["proxy"; "transcode"; "direct"]
  /\ (name <$> head (finalMethods (detectedOn noWebrtcDevice "4g"))) = Some "proxy".
Proof. repeat split; try (vm_compute; reflexivity); simpl; tauto. Qed.


Lemma score_priority_gap (st : Manager) (a b : Method) :
  priority a = 1%Z -> priority b = 2%Z ->
  rateOrDefault (successRate (metrics st)) (name a)
  == rateOrDefault (successRate (metrics st)) (name b) ->
  score st b < score st a.
Proof.
  intros Ha Hb Hr. unfold score. rewrite Ha, Hb, Hr.
  change (inject_Z 1) with 1. change (inject_Z 2) with 2. lra.
Qed.



(** ** Execution with fallback *)

Section ExecutorFacts.

Context {R : Type}.
Variable env : Env R.

Lemma trace_after_delay (b : bool) (ms : Q) (w : World R) :
  trace (if b then delay ms w else w) = trace w
  /\ methods (manager (if b then delay ms w else w)) = methods (manager w).
Proof. now destruct b. Qed.

(** The retry loop appends attempts made on [m] itself, with its own
    timeout, numbered from the loop counter on; it never touches the
    catalog. *)
Lemma attemptLoop_trace (m : Method) (n : nat) :
  forall (i : Z) (le : option JsError) (w : World R),
    methods (manager (signalWorld (attemptLoop env m n i le w))) = methods (manager w)
    /\ exists new,
        trace (signalWorld (attemptLoop env m n i le w)) = trace w ++ new
        /\ Forall (fun a => a_method a = m /\ a_timeout a = timeout m
                            /\ (i <= a_index a < i + Z.of_nat n)%Z
                            /\ exists k, a_settled a
                                         = snd (race (playFunction env k m) (timeout m)))
                  new.
Proof.
  induction n as [|n IH]; intros i le w.
  - simpl. split; [reflexivity|]. exists []. split; [now rewrite app_nil_r | constructor].
  - cbn [attemptLoop].
    destruct (race (playFunction env (calls w) m) (timeout m)) as [elapsed settled] eqn:Erace.
    assert (Hfirst :
               (fun a : Attempt R => a_method a = m /\ a_timeout a = timeout m
                          /\ (i <= a_index a < i + Z.of_nat (S n))%Z
                          /\ exists k, a_settled a
                                       = snd (race (playFunction env k m) (timeout m)))
                 (mkAttempt m i (timeout m) settled)).
    { simpl. repeat split; try lia. exists (calls w). now rewrite Erace. }
    destruct settled as [result|error].
    + simpl. split; [reflexivity|]. eexists. split; [reflexivity|].
      constructor; [apply Hfirst | constructor].
    + destruct (globalAttemptStartTime env) as [g|].
      * match goal with
        | |- context [attemptLoop env m n ?i' ?le' ?w'] =>
            destruct (IH i' le' w') as (Hm & new & Ht & Hnew);
            destruct (trace_after_delay (i <? retries m - 1)%Z
                        (1000 * inject_Z (i + 1))
                        (setManager
                           (recordFailure m error
                              (clock w + elapsed - g) (clock w + elapsed) (manager w))
                           (mkWorld (manager w) (clock w + elapsed) (S (calls w))
                              (trace w ++ [mkAttempt m i (timeout m) (inr error)]))))
              as (Htd & Hmd)
        end.
        simpl in Hm, Ht, Htd, Hmd |- *.
        split; [now rewrite Hm, Hmd|].
        exists (mkAttempt m i (timeout m) (inr error) :: new).
        split.
        { rewrite Ht, Htd. now rewrite <- app_assoc. }
        constructor; [apply Hfirst|].
        eapply List.Forall_impl; [|exact Hnew].
        intros a (H1 & H2 & H3 & H4). repeat split; try assumption; lia.
      * simpl. split; [reflexivity|]. eexists. split; [reflexivity|].
        constructor; [apply Hfirst | constructor].
Qed.

Lemma methodLoop_trace (ms : list Method) :
  forall (le : option JsError) (w : World R),
    methods (manager (signalWorld (methodLoop env ms le w))) = methods (manager w)
    /\ exists new,
        trace (signalWorld (methodLoop env ms le w)) = trace w ++ new
        /\ Forall (fun a => In (a_method a) ms /\ a_timeout a = timeout (a_method a)
                            /\ (0 <= a_index a < retries (a_method a))%Z
                            /\ exists k, a_settled a
                                         = snd (race (playFunction env k (a_method a))
                                                     (timeout (a_method a))))
                  new.
Proof.
  induction ms as [|m ms IH]; intros le w.
  - simpl. split; [reflexivity|]. exists []. split; [now rewrite app_nil_r | constructor].
  - cbn [methodLoop].
    destruct (attemptLoop_trace m (Z.to_nat (retries m)) 0 le w) as (Hm & new & Ht & Hnew).
    assert (Hnew' : Forall (fun a => In (a_method a) (m :: ms)
                                     /\ a_timeout a = timeout (a_method a)
                                     /\ (0 <= a_index a < retries (a_method a))%Z
                                     /\ exists k, a_settled a
                                                  = snd (race (playFunction env k (a_method a))
                                                              (timeout (a_method a))))
                           new).
    { eapply List.Forall_impl; [|exact Hnew].
      intros a (-> & H2 & H3 & H4).
      split; [now left|]. split; [assumption|]. split; [lia | exact H4]. }
    destruct (attemptLoop env m (Z.to_nat (retries m)) 0 le w) as [c w'|le' w'].
    + simpl in *. split; [exact Hm|]. now exists new.
    + simpl in Hm, Ht.
      destruct (IH le' w') as (Hm2 & new2 & Ht2 & Hnew2).
      split; [now rewrite Hm2|].
      exists (new ++ new2). split; [now rewrite Ht2, Ht, app_assoc|].
      apply Forall_app. split; [exact Hnew'|].
      eapply List.Forall_impl; [|exact Hnew2].
      intros a (H1 & H2 & H3 & H4). split; [now right | now repeat split].
Qed.

Lemma methodsToTry_In (st : Manager) (selectedMethod m : Method) :
  In m (methodsToTry st selectedMethod) -> In m (methods st) /\ available m = true.
Proof.
  unfold methodsToTry. rewrite jsSort_In. apply List.filter_In.
Qed.

Lemma selectBestMethod_Return (st st' : Manager) (selectedMethod : Method) :
  selectBestMethod st = (Return selectedMethod, st') ->
  st' = setCurrentMethod selectedMethod st
  /\ head (finalMethods st) = Some selectedMethod.
Proof.
  unfold selectBestMethod.
  destruct (availableMethods st); [discriminate|].
  destruct (finalMethods st); [discriminate|].
  intros [= -> <-]. now split.
Qed.

Lemma selectBestMethod_methods (st : Manager) :
  methods (snd (selectBestMethod st)) = methods st.
Proof.
  unfold selectBestMethod.
  destruct (availableMethods st); [reflexivity|].
  now destruct (finalMethods st).
Qed.

Lemma executeWithFallback_trace (st : Manager) (t : Q) :
  methods (manager (snd (executeWithFallback env (call st t)))) = methods st
  /\ Forall (usesCatalog env st) (trace (snd (executeWithFallback env (call st t)))).
Proof.
  unfold executeWithFallback. cbn [manager call].
  pose proof (selectBestMethod_methods st) as Hsel.
  destruct (selectBestMethod st) as [[selectedMethod|e] st']; simpl in Hsel.
  - destruct (methodLoop_trace (methodsToTry st' selectedMethod) None
                (setManager st' (call st t))) as (Hm & new & Ht & Hnew).
    assert (Hall : Forall (usesCatalog env st) new).
    { eapply List.Forall_impl; [|exact Hnew].
      intros a (H1 & H2 & H3 & H4). apply methodsToTry_In in H1 as [H1 _].
      rewrite Hsel in H1. split; [exact H1 | now repeat split]. }
    destruct (methodLoop env (methodsToTry st' selectedMethod) None
                (setManager st' (call st t))) as [c w'|le w'];
      simpl in Hm, Ht |- *; rewrite Hm, Ht; now split.
  - simpl. split; [exact Hsel | constructor].
Qed.

End ExecutorFacts.

Section SingleAttempt.

Context {R : Type}.
Variable env : Env R.

(** A successful attempt is recorded and ends the call with the result of
    the operation. *)
Lemma attemptLoop_success (m : Method) (n : nat) (i : Z) (le : option JsError)
    (w : World R) (elapsed : Q) (result : R) :
  race (playFunction env (calls w) m) (timeout m) = (elapsed, inl result) ->
  attemptLoop env m (S n) i le w
  = Done (Return result)
      (mkWorld
         (recordSuccess m (clock w + elapsed - clock w) (clock w + elapsed) (manager w))
         (clock w + elapsed) (S (calls w))
         (trace w ++ [mkAttempt m i (timeout m) (inl result)])).
Proof. intros H. cbn [attemptLoop]. now rewrite H. Qed.

(** In a page that does not bind [attemptStartTime], a failed attempt
    ends the call with a [ReferenceError]: nothing is recorded and nothing
    is retried. *)
Lemma attemptLoop_failure_unbound (m : Method) (n : nat) (i : Z) (le : option JsError)
    (w : World R) (elapsed : Q) (error : JsError) :
  globalAttemptStartTime env = None ->
  race (playFunction env (calls w) m) (timeout m) = (elapsed, inr error) ->
  attemptLoop env m (S n) i le w
  = Done (Throw (referenceError "attemptStartTime"))
      (mkWorld (manager w) (clock w + elapsed) (S (calls w))
         (trace w ++ [mkAttempt m i (timeout m) (inr error)])).
Proof. intros Hg H. cbn [attemptLoop]. now rewrite H, Hg. Qed.

Hypothesis unbound : globalAttemptStartTime env = None.

Lemma attemptLoop_unbound (m : Method) (n : nat) (i : Z) (w : World R) :
  match attemptLoop env m n i None w with
  | Done (Return _) w' => length (trace w') = S (length (trace w))
  | Done (Throw e) w' =>
      e = referenceError "attemptStartTime"
      /\ length (trace w') = S (length (trace w))
      /\ manager w' = manager w
  | Fallthrough le w' => le = None /\ w' = w
  end.
Proof.
  destruct n as [|n]; [now split|].
  destruct (race (playFunction env (calls w) m) (timeout m)) as [elapsed [result|error]] eqn:E.
  - rewrite (attemptLoop_success _ _ _ _ _ _ _ E). simpl. rewrite length_app. simpl. lia.
  - rewrite (attemptLoop_failure_unbound _ _ _ _ _ _ _ unbound E). simpl.
    rewrite length_app. simpl. repeat split. lia.
Qed.

Lemma methodLoop_unbound (ms : list Method) (w : World R) :
  match methodLoop env ms None w with
  | Done (Return _) w' => length (trace w') = S (length (trace w))
  | Done (Throw e) w' =>
      e = referenceError "attemptStartTime"
      /\ length (trace w') = S (length (trace w))
      /\ manager w' = manager w
  | Fallthrough le w' => le = None /\ w' = w
  end.
Proof.
  induction ms as [|m ms IH]; [now split|].
  cbn [methodLoop].
  pose proof (attemptLoop_unbound m (Z.to_nat (retries m)) 0 w) as H.
  destruct (attemptLoop env m (Z.to_nat (retries m)) 0 None w) as [[v|e] w'|le w'];
    try exact H.
  destruct H as [-> ->]. exact IH.
Qed.

(** What a caller can receive in such a page: a result after one single
    attempt, the error of [selectBestMethod] when no method is available,
    a [ReferenceError] after one single failed attempt, or the exhaustion
    error without any attempt (when no available method has a positive
    number of retries). *)
Lemma executeWithFallback_unbound (st : Manager) (t : Q) :
  match executeWithFallback env (call st t) with
  | (Return _, w') => length (trace w') = 1%nat
  | (Throw e, w') =>
      (e = newError "没有可用的播放方案" /\ trace w' = [])
      \/ (e = referenceError "attemptStartTime" /\ length (trace w') = 1%nat
          /\ attemptHistory (manager w') = attemptHistory st)
      \/ (e = allFailed None /\ trace w' = [])
  end.
Proof.
  unfold executeWithFallback. cbn [manager call].
  destruct (selectBestMethod st) as [[selectedMethod|e] st'] eqn:Hsel.
  - apply selectBestMethod_Return in Hsel as [-> _].
    pose proof (methodLoop_unbound
                  (methodsToTry (setCurrentMethod selectedMethod st) selectedMethod)
                  (setManager (setCurrentMethod selectedMethod st) (mkWorld st t 0 [])))
      as H.
    destruct (methodLoop env _ None _) as [[v|e] w'|le w'].
    + exact H.
    + destruct H as (-> & Hlen & Hm). right. left. rewrite Hm. now repeat split.
    + destruct H as [-> ->]. right. right. now split.
  - left. unfold selectBestMethod in Hsel.
    destruct (availableMethods st) eqn:Ha.
    + injection Hsel as <- <-. now split.
    + exfalso. pose proof (finalMethods_length st) as Hlen. rewrite Ha in Hlen.
      destruct (finalMethods st); [discriminate Hlen | discriminate Hsel].
Qed.

End SingleAttempt.

(** C9: whatever the network condition and whatever the caller's
    function does, every attempt of [executeWithFallback] is made on a
    method object of the catalog, races the operation against that
    object's own timeout and has a loop counter below that object's own
    retries, and the catalog is the same after the call; the adjusted
    timeouts and retries exist only in the copies ordered by the
    selection. *)
Theorem attempts_use_catalog_values {R : Type} (env : Env R) (st : Manager) (t : Q) :
  Forall (usesCatalog env st) (trace (snd (executeWithFallback env (call st t))))
  /\ methods (manager (snd (executeWithFallback env (call st t)))) = methods st
  /\ Permutation (finalMethods st)
       (map (optimizedMethod (getNetworkSpeedCategory st))
            (List.filter available (methods st))).
Proof.
  destruct (executeWithFallback_trace env st t) as [Hm Ht].
  split; [exact Ht|]. split; [exact Hm|]. apply finalMethods_Permutation.
Qed.

(** On a slow network the selected copy of [webrtc] carries the doubled
    timeout and one more retry, while the attempts are made with the
    10000 ms and the two tries of the catalog. *)
Example slow_network_copies_are_not_consumed :
  ((fun m => (name m, Qred (timeout m), retries m)) <$> head (finalMethods (detected "2g")))
  = Some ("webrtc", 20000, 3%Z)
  /\ map (fun a => (name (a_method a), a_index a, a_timeout a))
         (trace (snd (executeWithFallback (allDown "ICE failed") (call (detected "2g") 0))))
     = [("webrtc", 0%Z, 10000); ("webrtc", 1%Z, 10000);
        ("proxy", 0%Z, 15000); ("proxy", 1%Z, 15000); ("proxy", 2%Z, 15000);
        ("transcode", 0%Z, 30000); ("transcode", 1%Z, 30000);
        ("direct", 0%Z, 20000)].
Proof. split; vm_compute; reflexivity. Qed.

(** *** Runs in which every attempt fails *)

Section Exhaustion.

Context {R : Type}.
Variable env : Env R.
Variable g : Q.
Hypothesis handler_scope : globalAttemptStartTime env = Some g.
Hypothesis all_fail : alwaysFails env.

Lemma lastFailure_snoc (t : list (Attempt R)) (m : Method) (i : Z) (ms : Q) (e : JsError) :
  lastFailure (t ++ [mkAttempt m i ms (inr e)]) = Some e.
Proof. unfold lastFailure. now rewrite last_snoc. Qed.

Lemma attemptLoop_all_fail (m : Method) (n : nat) :
  forall (i : Z) (w : World R),
  exists w',
    attemptLoop env m n i (lastFailure (trace w)) w = Fallthrough (lastFailure (trace w')) w'
    /\ map shape (trace w')
       = map shape (trace w) ++ map (fun j => (m, (i + Z.of_nat j)%Z, timeout m)) (seq 0 n).
Proof.
  induction n as [|n IH]; intros i w.
  - exists w. split; [reflexivity|]. simpl. now rewrite app_nil_r.
  - cbn [attemptLoop].
    destruct (all_fail (calls w) m) as [e He].
    destruct (race (playFunction env (calls w) m) (timeout m)) as [elapsed settled].
    simpl in He. subst settled. rewrite handler_scope.
    match goal with
    | |- context [attemptLoop env m n ?i' (Some e) ?w'] =>
        assert (Htr : trace w' = trace w ++ [mkAttempt m i (timeout m) (inr e)])
          by (now destruct (i <? retries m - 1)%Z);
        destruct (IH i' w') as (w'' & Hrun & Hshape);
        rewrite Htr, lastFailure_snoc in Hrun
    end.
    exists w''. split; [exact Hrun|].
    rewrite Hshape, Htr, map_app, <- app_assoc. f_equal.
    cbn [map seq shape a_method a_index a_timeout app].
    rewrite Z.add_0_r. f_equal.
    rewrite <- seq_shift, map_map. apply map_ext. intros j. f_equal. f_equal. lia.
Qed.

Lemma methodLoop_all_fail (ms : list Method) :
  forall (w : World R),
  exists w',
    methodLoop env ms (lastFailure (trace w)) w = Fallthrough (lastFailure (trace w')) w'
    /\ map shape (trace w') = map shape (trace w) ++ fullBudget ms.
Proof.
  induction ms as [|m ms IH]; intros w.
  - exists w. split; [reflexivity|]. simpl. now rewrite app_nil_r.
  - cbn [methodLoop].
    destruct (attemptLoop_all_fail m (Z.to_nat (retries m)) 0 w) as (w1 & Hrun & Hshape).
    rewrite Hrun.
    destruct (IH w1) as (w2 & Hrun2 & Hshape2).
    exists w2. split; [exact Hrun2|].
    rewrite Hshape2, Hshape, <- app_assoc. reflexivity.
Qed.

End Exhaustion.

Lemma allDown_alwaysFails (webrtcMessage : string) : alwaysFails (allDown webrtcMessage).
Proof.
  intros k m. simpl. unfold rejecting, race.
  destruct (String.eqb (name m) "webrtc"); destruct (Qltb 100 (Qmax 0 (timeout m)));
    eexists; reflexivity.
Qed.

(** C7, as the specification words it, fails on the code: when every
    strategy has used up its retries, what is thrown is a plain [Error]
    whose message ends with the message of the last error only.  Two runs
    in which [webrtc] fails for different reasons throw the same error,
    although their per-strategy entries differ: the error carries no entry
    per strategy. *)
Lemma exhaustion_error_has_no_entries :
  fst (executeWithFallback (allDown "ICE failed") (call (detected "4g") 0))
  = Throw (newError "所有播放方案都失败了: unreachable")
  /\ fst (executeWithFallback (allDown "no peer") (call (detected "4g") 0))
     = fst (executeWithFallback (allDown "ICE failed") (call (detected "4g") 0))
  /\ specAggregateEntries (methods (detected "4g"))
       (trace (snd (executeWithFallback (allDown "no peer") (call (detected "4g") 0))))
     <> specAggregateEntries (methods (detected "4g"))
          (trace (snd (executeWithFallback (allDown "ICE failed") (call (detected "4g") 0)))).
Proof.
  split; [vm_compute; reflexivity|].
  split; [vm_compute; reflexivity|].
  vm_compute. discriminate.
Qed.

(** C7, amended: when the handler of a failed attempt can read
    [attemptStartTime], no attempt succeeds and some method is available,
    [executeWithFallback] tries every method of the plan exactly [retries]
    times, in the order of the plan and with the method's own timeout,
    and then throws one [Error] whose message is the fixed prefix followed
    by the message of the error of the last attempt (the words for
    "unknown error" when there was none or its message is empty); the
    error holds nothing else. *)
Theorem exhaustion_throws_last_error {R : Type} (env : Env R) (st st' : Manager)
    (t g : Q) (selectedMethod : Method) :
  globalAttemptStartTime env = Some g ->
  alwaysFails env ->
  selectBestMethod st = (Return selectedMethod, st') ->
  exists w',
    executeWithFallback env (call st t) = (Throw (allFailed (lastFailure (trace w'))), w')
    /\ map shape (trace w') = fullBudget (methodsToTry st selectedMethod)
    /\ allFailed (lastFailure (trace w'))
       = newError ("所有播放方案都失败了: " ++ messageOrUnknown (lastFailure (trace w'))).
Proof.
  intros Hg Hfail Hsel.
  unfold executeWithFallback. cbn [manager call]. rewrite Hsel.
  apply selectBestMethod_Return in Hsel as [-> _]. cbv beta iota.
  destruct (methodLoop_all_fail env g Hg Hfail
              (methodsToTry (setCurrentMethod selectedMethod st) selectedMethod)
              (setManager (setCurrentMethod selectedMethod st) (call st t)))
    as (w' & Hrun & Hshape).
  change (lastFailure (trace (setManager (setCurrentMethod selectedMethod st) (call st t))))
    with (@None JsError) in Hrun.
  rewrite Hrun. exists w'. split; [reflexivity|]. split; [exact Hshape | reflexivity].
Qed.

(** The amended statement on the run of the counterexample: on the
    default catalog, all methods available, eight attempts are made
    (2, 3, 2 and 1) before the error is thrown. *)
Lemma exhaustion_throws_last_error_witness :
  globalAttemptStartTime (allDown "ICE failed") = Some 0
  /\ alwaysFails (allDown "ICE failed")
  /\ exists w',
      executeWithFallback (allDown "ICE failed") (call (detected "4g") 0)
      = (Throw (allFailed (lastFailure (trace w'))), w')
      /\ map shape (trace w')
         = fullBudget (methodsToTry (detected "4g")
                         (optimizedMethod Fast (setAvailable true webrtc)))
      /\ allFailed (lastFailure (trace w'))
         = newError ("所有播放方案都失败了: " ++ messageOrUnknown (lastFailure (trace w'))).
Proof.
  split; [reflexivity|]. split; [apply allDown_alwaysFails|].
  apply (exhaustion_throws_last_error (allDown "ICE failed") (detected "4g")
           (setCurrentMethod (optimizedMethod Fast (setAvailable true webrtc)) (detected "4g"))
           0 0 (optimizedMethod Fast (setAvailable true webrtc))).
  - reflexivity.
  - apply allDown_alwaysFails.
  - vm_compute. reflexivity.
Defined.

(** C2 fails on the code by a slip of scope: [attemptStartTime] is
    declared with [const] inside the [try] block and read in the [catch]
    block, where it is not bound.  With a caller whose promise is
    rejected, the first failed attempt makes the handler itself throw a
    [ReferenceError], which leaves [executeWithFallback]: [webrtc] is
    tried once although it has two retries, no other method is tried and
    no failure is recorded. *)
Theorem first_failure_escapes :
  fst (executeWithFallback failingPage (call (detected "4g") 0))
  = Throw (referenceError "attemptStartTime")
  /\ map (fun a => (name (a_method a), a_index a))
         (trace (snd (executeWithFallback failingPage (call (detected "4g") 0))))
     = [("webrtc", 0%Z)]
  /\ retries webrtc = 2%Z
  /\ map name (List.filter available (methods (detected "4g")))
     = ["webrtc"; "proxy"; "transcode"; "direct"]
  /\ attemptHistory (manager (snd (executeWithFallback failingPage (call (detected "4g") 0))))
     = [].
Proof. repeat split; vm_compute; reflexivity. Qed.

(** C6 fails on the code by the same slip: when [webrtc] fails and
    [proxy] would succeed, the first failure of [webrtc] ends the call
    with a [ReferenceError]; [proxy] is never tried and nothing is
    recorded.  Only in a page that happens to bind a global
    [attemptStartTime] does the call behave as described: it returns the
    result of [proxy], with two failure records for [webrtc] and one
    success record for [proxy]. *)
Theorem fallback_is_not_reached :
  fst (executeWithFallback (webrtcDown None) (call (detected "4g") 0))
  = Throw (referenceError "attemptStartTime")
  /\ map (fun a => (name (a_method a), a_index a))
         (trace (snd (executeWithFallback (webrtcDown None) (call (detected "4g") 0))))
     = [("webrtc", 0%Z)]
  /\ attemptHistory
       (manager (snd (executeWithFallback (webrtcDown None) (call (detected "4g") 0)))) = []
  /\ connectionTime
       (metrics (manager (snd (executeWithFallback (webrtcDown None) (call (detected "4g") 0)))))
     = []
  /\ fst (executeWithFallback (webrtcDown (Some 0)) (call (detected "4g") 0))
     = Return "playing"
  /\ map (fun a => (h_method a, h_success a))
         (attemptHistory
            (manager (snd (executeWithFallback (webrtcDown (Some 0)) (call (detected "4g") 0)))))
     = [("webrtc", false); ("webrtc", false)]
  /\ map c_method
         (connectionTime
            (metrics (manager (snd (executeWithFallback (webrtcDown (Some 0))
                                      (call (detected "4g") 0))))))
     = ["proxy"].
Proof. repeat split; vm_compute; reflexivity. Qed.

(** * Further properties of the manager *)

(** ** What every call keeps *)

Section Preservation.

Context {R : Type}.
Variable env : Env R.
Variable P : Manager -> Prop.
Hypothesis keep_select : forall m st, P st -> P (setCurrentMethod m st).
Hypothesis keep_success : forall m time dateNow st, P st -> P (recordSuccess m time dateNow st).
Hypothesis keep_failure :
  forall m e time dateNow st, P st -> P (recordFailure m e time dateNow st).

Lemma attemptLoop_preserves (m : Method) (n : nat) :
  forall (i : Z) (le : option JsError) (w : World R),
    P (manager w) -> P (manager (signalWorld (attemptLoop env m n i le w))).
Proof.
  induction n as [|n IH]; intros i le w Hw; [exact Hw|].
  cbn [attemptLoop].
  destruct (race (playFunction env (calls w) m) (timeout m)) as [elapsed [result|error]].
  - simpl. now apply keep_success.
  - destruct (globalAttemptStartTime env) as [g|]; [|exact Hw].
    apply IH. destruct (i <? retries m - 1)%Z; simpl; now apply keep_failure.
Qed.

Lemma methodLoop_preserves (ms : list Method) :
  forall (le : option JsError) (w : World R),
    P (manager w) -> P (manager (signalWorld (methodLoop env ms le w))).
Proof.
  induction ms as [|m ms IH]; intros le w Hw; [exact Hw|].
  cbn [methodLoop].
  pose proof (attemptLoop_preserves m (Z.to_nat (retries m)) 0 le w Hw) as H.
  destruct (attemptLoop env m (Z.to_nat (retries m)) 0 le w) as [c w'|le' w'];
    [exact H | now apply IH].
Qed.

Lemma selectBestMethod_preserves (st : Manager) : P st -> P (snd (selectBestMethod st)).
Proof.
  intros H. unfold selectBestMethod.
  destruct (availableMethods st); [exact H|].
  destruct (finalMethods st); [exact H | now apply keep_select].
Qed.

Lemma executeWithFallback_preserves (st : Manager) (t : Q) :
  P st -> P (manager (snd (executeWithFallback env (call st t)))).
Proof.
  intros H. unfold executeWithFallback. cbn [manager call].
  pose proof (selectBestMethod_preserves st H) as Hsel.
  destruct (selectBestMethod st) as [[selectedMethod|e] st']; [|exact Hsel].
  simpl in Hsel.
  pose proof (methodLoop_preserves (methodsToTry st' selectedMethod) None
                (setManager st' (mkWorld st t 0 [])) Hsel) as Hloop.
  now destruct (methodLoop env _ None _).
Qed.

End Preservation.

Lemma limitLength_snoc_length {A : Type} (bound : nat) (l : list A) (x : A) :
  (length l <= bound)%nat -> (length (limitLength bound (l ++ [x])) <= bound)%nat.
Proof.
  intros H. unfold limitLength.
  destruct (Nat.ltb_spec bound (length (l ++ [x]))) as [Hlt|Hle]; [|exact Hle].
  rewrite length_app in Hlt. simpl in Hlt.
  destruct l as [|y l]; simpl in *; [lia|].
  rewrite length_app. simpl. lia.
Qed.

Lemma storageBounded_reachable (st : Manager) : Reachable st -> storageBounded st.
Proof.
  induction 1 as [|d st _ IH|n st _ IH|k st _ IH|st _ IH|st _ IH|m time dateNow st _ IH
                  |m e time dateNow st _ IH|st _ IH|R env t st _ IH].
  - split; simpl; lia.
  - exact IH.
  - exact IH.
  - exact IH.
  - exact IH.
  - apply selectBestMethod_preserves; [now intros|exact IH].
  - destruct IH as [Hh Hc]. split; [exact Hh|]. simpl. now apply limitLength_snoc_length.
  - destruct IH as [Hh Hc]. split; [|exact Hc]. simpl. now apply limitLength_snoc_length.
  - split; simpl; lia.
  - apply executeWithFallback_preserves; try exact IH.
    + now intros.
    + intros m time dateNow st0 [Hh Hc]. split; [exact Hh|].
      simpl. now apply limitLength_snoc_length.
    + intros m e time dateNow st0 [Hh Hc]. split; [|exact Hc].
      simpl. now apply limitLength_snoc_length.
Qed.

Lemma declaration_alter (f : Method -> Method) (k : nat) (l : list Method) :
  (forall m, declaration (f m) = declaration m) ->
  map declaration (alter f k l) = map declaration l.
Proof.
  intros Hf. revert k. induction l as [|m l IH]; intros [|k]; simpl; try reflexivity.
  - now rewrite Hf.
  - f_equal. apply IH.
Qed.

Lemma catalogFixed_reachable (st : Manager) : Reachable st -> catalogFixed st.
Proof.
  unfold catalogFixed.
  induction 1 as [|d st _ IH|n st _ IH|k st _ IH|st _ IH|st _ IH|m time dateNow st _ IH
                  |m e time dateNow st _ IH|st _ IH|R env t st _ IH];
    try exact IH.
  - reflexivity.
  - cbn [detectOne setMethods methods].
    rewrite declaration_alter; [exact IH | reflexivity].
  - cbn [detectMethodAvailability setMethods methods].
    rewrite map_map, <- IH. now apply map_ext.
  - now rewrite selectBestMethod_methods.
  - now rewrite (proj1 (executeWithFallback_trace env st t)).
Qed.

Lemma record_metricsConsistent (st : Manager) (r : Recorded) :
  metricsConsistent st -> metricsConsistent (record st r).
Proof.
  intros (Hr & Hf & _). split; [now apply record_within|].
  pose proof (record_onlyFailures st r Hf) as Hf'. split; [exact Hf'|].
  rewrite record_errorRate. now apply computeErrorRate_onlyFailures.
Qed.

Lemma metricsConsistent_reachable (st : Manager) : Reachable st -> metricsConsistent st.
Proof.
  induction 1 as [|d st _ IH|n st _ IH|k st _ IH|st _ IH|st _ IH|m time dateNow st _ IH
                  |m e time dateNow st _ IH|st _ IH|R env t st _ IH];
    try exact IH.
  - split; [|split; [constructor | reflexivity]].
    intros k0 r0. simpl. now rewrite lookup_empty.
  - apply selectBestMethod_preserves; [now intros|exact IH].
  - exact (record_metricsConsistent st (Succeeded m time dateNow) IH).
  - exact (record_metricsConsistent st (Failed m e time dateNow) IH).
  - split; [|split; [constructor | reflexivity]].
    intros k0 r0. simpl. now rewrite lookup_empty.
  - apply executeWithFallback_preserves; try exact IH.
    + now intros.
    + intros m time dateNow st0 H0.
      exact (record_metricsConsistent st0 (Succeeded m time dateNow) H0).
    + intros m e time dateNow st0 H0.
      exact (record_metricsConsistent st0 (Failed m e time dateNow) H0).
Qed.

Lemma Reachable_initialize (d : gmap string bool) (n : NetworkInfo) (st : Manager) :
  Reachable st -> Reachable (initializeCapabilityDetection d n st).
Proof.
  intros H. exact (reach_detect _ (reach_device d _ (reach_network n _ H))).
Qed.

Lemma Reachable_recordAll (rs : list Recorded) (st : Manager) :
  Reachable st -> Reachable (recordAll rs st).
Proof.
  revert st. induction rs as [|r rs IH]; intros st H; [exact H|].
  simpl. apply IH. destruct r; [now apply reach_success | now apply reach_failure].
Qed.

(** X1: whatever calls a manager has gone through, [executeWithFallback]
    included, its attempt history never holds more than 50 records and
    its connection-time list never more than 100. *)
Theorem histories_stay_bounded (st : Manager) :
  Reachable st ->
  (length (attemptHistory st) <= 50)%nat
  /\ (length (connectionTime (metrics st)) <= 100)%nat.
Proof. exact (storageBounded_reachable st). Qed.

(** Sixty recorded failures leave fifty records. *)
Lemma histories_stay_bounded_witness :
  Reachable (recordAll (repeat (Failed direct timeoutError 0 0) 60) newManager)
  /\ (length (attemptHistory
                (recordAll (repeat (Failed direct timeoutError 0 0) 60) newManager)) <= 50)%nat
  /\ (length (connectionTime (metrics
                (recordAll (repeat (Failed direct timeoutError 0 0) 60) newManager))) <= 100)%nat.
Proof.
  assert (H : Reachable (recordAll (repeat (Failed direct timeoutError 0 0) 60) newManager))
    by (apply Reachable_recordAll, reach_new).
  split; [exact H|]. exact (histories_stay_bounded _ H).
Defined.

(** X2: no call ever changes what the catalog declares: in every state a
    manager can reach, the methods are the four of the constructor, in
    the same order, with the same name, priority, timeout, retries and
    requirements; only the availability flags change. *)
Theorem catalog_is_never_changed (st : Manager) :
  Reachable st -> map declaration (methods st) = map declaration defaultMethods.
Proof. exact (catalogFixed_reachable st). Qed.

Lemma catalog_is_never_changed_witness :
  Reachable (manager (snd (executeWithFallback (allDown "ICE failed") (call (detected "2g") 0))))
  /\ map declaration
       (methods (manager (snd (executeWithFallback (allDown "ICE failed")
                                 (call (detected "2g") 0)))))
     = map declaration defaultMethods.
Proof.
  assert (H : Reachable (manager (snd (executeWithFallback (allDown "ICE failed")
                                         (call (detected "2g") 0))))).
  { apply reach_execute. unfold detected, detectedOn.
    apply Reachable_initialize, reach_new. }
  split; [exact H|]. exact (catalog_is_never_changed _ H).
Defined.

(** X3: in every state a manager can reach (after [executeWithFallback]
    and [resetMetrics] too), every stored success rate is within [0,1],
    the attempt history holds failure records only, and the stored error
    rate is 0 when the history is empty and 1 otherwise. *)
Theorem metrics_stay_consistent (st : Manager) :
  Reachable st ->
  ratesWithin (successRate (metrics st))
  /\ onlyFailures (attemptHistory st)
  /\ errorRate (metrics st) == errorRateOf (attemptHistory st).
Proof. exact (metricsConsistent_reachable st). Qed.

Lemma metrics_stay_consistent_witness :
  Reachable (manager (snd (executeWithFallback (webrtcDown (Some 0)) (call (detected "4g") 0))))
  /\ errorRate (metrics (manager (snd (executeWithFallback (webrtcDown (Some 0))
                                         (call (detected "4g") 0)))))
     == errorRateOf
          (attemptHistory (manager (snd (executeWithFallback (webrtcDown (Some 0))
                                           (call (detected "4g") 0))))).
Proof.
  assert (H : Reachable (manager (snd (executeWithFallback (webrtcDown (Some 0))
                                         (call (detected "4g") 0))))).
  { apply reach_execute. unfold detected, detectedOn.
    apply Reachable_initialize, reach_new. }
  split; [exact H|]. exact (proj2 (proj2 (metrics_stay_consistent _ H))).
Defined.

(** ** The two histories *)

Lemma limitLength_sliceLast {A : Type} (bound : nat) (l : list A) :
  (length l <= S bound)%nat -> limitLength bound l = sliceLast bound l.
Proof.
  intros H. unfold limitLength, sliceLast.
  destruct (Nat.ltb_spec bound (length l)) as [Hlt|Hle].
  - replace (length l - bound)%nat with 1%nat by lia. now destruct l.
  - now replace (length l - bound)%nat with 0%nat by lia.
Qed.

(** X4: both histories are windows that drop their oldest entry: a
    recorded failure leaves the last 50 records of the old history
    followed by the new record, a recorded success the last 100 entries
    of the old connection-time list followed by the new entry. *)
Theorem histories_drop_oldest (st : Manager) (m : Method) (e : JsError) (time dateNow : Q) :
  (length (attemptHistory st) <= 50)%nat ->
  (length (connectionTime (metrics st)) <= 100)%nat ->
  attemptHistory (recordFailure m e time dateNow st)
  = sliceLast 50 (attemptHistory st ++ [mkAttemptRecord (name m) false (message e) time dateNow])
  /\ connectionTime (metrics (recordSuccess m time dateNow st))
     = sliceLast 100 (connectionTime (metrics st) ++ [mkConnectionRecord (name m) time dateNow])
  /\ last (attemptHistory (recordFailure m e time dateNow st))
     = Some (mkAttemptRecord (name m) false (message e) time dateNow)
  /\ last (connectionTime (metrics (recordSuccess m time dateNow st)))
     = Some (mkConnectionRecord (name m) time dateNow).
Proof.
  intros Hh Hc.
  assert (E1 : attemptHistory (recordFailure m e time dateNow st)
               = sliceLast 50 (attemptHistory st
                               ++ [mkAttemptRecord (name m) false (message e) time dateNow])).
  { cbn [recordFailure updateMetrics setMetrics attemptHistory].
    apply limitLength_sliceLast. rewrite length_app. simpl. lia. }
  assert (E2 : connectionTime (metrics (recordSuccess m time dateNow st))
               = sliceLast 100 (connectionTime (metrics st)
                                ++ [mkConnectionRecord (name m) time dateNow])).
  { cbn [recordSuccess updateMetrics setMetrics metrics connectionTime].
    apply limitLength_sliceLast. rewrite length_app. simpl. lia. }
  split; [exact E1|]. split; [exact E2|].
  rewrite E1, E2. unfold sliceLast.
  split.
  - rewrite length_app. simpl.
    destruct (decide (length (attemptHistory st) = 50%nat)) as [E|E].
    + rewrite E. simpl. destruct (attemptHistory st) as [|a l]; [discriminate|].
      simpl. apply last_snoc.
    + replace (length (attemptHistory st) + 1 - 50)%nat with 0%nat by lia.
      apply last_snoc.
  - rewrite length_app. simpl.
    destruct (decide (length (connectionTime (metrics st)) = 100%nat)) as [E|E].
    + rewrite E. simpl. destruct (connectionTime (metrics st)) as [|a l]; [discriminate|].
      simpl. apply last_snoc.
    + replace (length (connectionTime (metrics st)) + 1 - 100)%nat with 0%nat by lia.
      apply last_snoc.
Qed.

Lemma histories_drop_oldest_witness :
  attemptHistory
    (recordFailure proxy timeoutError 7 9
       (recordAll (repeat (Failed direct timeoutError 0 0) 50) newManager))
  = sliceLast 50
      (attemptHistory (recordAll (repeat (Failed direct timeoutError 0 0) 50) newManager)
       ++ [mkAttemptRecord "proxy" false (message timeoutError) 7 9]).
Proof.
  refine (proj1 (histories_drop_oldest
                   (recordAll (repeat (Failed direct timeoutError 0 0) 50) newManager)
                   proxy timeoutError 7 9 _ _)).
  - vm_compute. lia.
  - vm_compute. lia.
Defined.

(** ** Success rates *)

Lemma record_rates (st : Manager) (r : Recorded) :
  successRate (metrics (record st r))
  = match r with
    | Succeeded m _ _ => bumpSuccessRate (name m) (successRate (metrics st))
    | Failed m _ _ _ => dropSuccessRate (name m) (successRate (metrics st))
    end.
Proof. now destruct r. Qed.

(** X5: recording an attempt of one strategy leaves the stored rate and
    the score of every strategy with another name as they were. *)
Theorem recording_leaves_other_strategies (st : Manager) (r : Recorded) (other : Method) :
  name (recordedMethod r) <> name other ->
  successRate (metrics (record st r)) !! name other = successRate (metrics st) !! name other
  /\ score (record st r) other = score st other.
Proof.
  intros Hne.
  assert (E : successRate (metrics (record st r)) !! name other
              = successRate (metrics st) !! name other).
  { rewrite record_rates. destruct r; simpl in Hne;
      unfold bumpSuccessRate, dropSuccessRate; now rewrite lookup_insert_ne. }
  split; [exact E|]. unfold score, rateOrDefault. now rewrite E.
Qed.

Lemma recording_leaves_other_strategies_witness :
  score (record (detected "4g") (Failed webrtc timeoutError 0 0)) proxy
  = score (detected "4g") proxy.
Proof.
  refine (proj2 (recording_leaves_other_strategies (detected "4g")
                   (Failed webrtc timeoutError 0 0) proxy _)).
  simpl. discriminate.
Defined.



(** ** Selection *)

Lemma StronglySorted_weaken_In {A : Type} (R R' : A -> A -> Prop) (l : list A) :
  (forall a b, In a l -> In b l -> R a b -> R' a b) ->
  StronglySorted R l -> StronglySorted R' l.
Proof.
  intros HR Hs. induction Hs as [|x l Hl IH Hx]; constructor.
  - apply IH. intros a b Ha Hb. apply HR; now right.
  - rewrite List.Forall_forall in *. intros b Hb.
    apply HR; [now left | now right | now apply Hx].
Qed.

Lemma finalMethods_rate (st : Manager) (m : Method) (r : Q) :
  (forall m0, In m0 (methods st) -> available m0 = true ->
              rateOrDefault (successRate (metrics st)) (name m0) == r) ->
  In m (finalMethods st) ->
  rateOrDefault (successRate (metrics st)) (name m) == r.
Proof.
  intros Hr Hin. apply finalMethods_origin in Hin as (m0 & Hin & Hav & ->).
  rewrite optimizedMethod_name. now apply Hr.
Qed.

(** X7: when all available strategies have the same success rate (as
    they do before anything is recorded and after [resetMetrics]), the
    selection orders them by ascending priority, whatever the network
    condition, a slow network included. *)
Theorem equal_rates_give_priority_order (st : Manager) (r : Q) :
  (forall m, In m (methods st) -> available m = true ->
             rateOrDefault (successRate (metrics st)) (name m) == r) ->
  StronglySorted priorityAscending (finalMethods st)
  /\ Permutation (finalMethods st) (adjustedMethods st).
Proof.
  intros Hr. split; [|apply finalMethods_Permutation].
  apply StronglySorted_weaken_In with (R := scoreDescending st);
    [|apply finalMethods_sorted].
  intros a b Ha Hb. unfold scoreDescending, priorityAscending, score.
  rewrite (finalMethods_rate st a r Hr Ha), (finalMethods_rate st b r Hr Hb).
  intros H. rewrite Zle_Qle. lra.
Qed.

Lemma equal_rates_give_priority_order_witness :
  getNetworkSpeedCategory (detected "2g") = Slow
  /\ StronglySorted priorityAscending (finalMethods (detected "2g")).
Proof.
  split; [reflexivity|].
  refine (proj1 (equal_rates_give_priority_order (detected "2g") 0.5 _)).
  intros m _ _. reflexivity.
Defined.

Lemma availableMethods_nil (st : Manager) :
  availableMethods st = [] <-> List.filter available (methods st) = [].
Proof.
  unfold availableMethods. split; intros H.
  - apply length_zero_iff_nil. rewrite <- (jsSort_length byPriority), H. reflexivity.
  - now rewrite H.
Qed.

Lemma selectBestMethod_none (st : Manager) :
  List.filter available (methods st) = [] ->
  selectBestMethod st = (Throw (newError "没有可用的播放方案"), st).
Proof.
  intros H. apply availableMethods_nil in H. unfold selectBestMethod. now rewrite H.
Qed.

Lemma selectBestMethod_some (st : Manager) :
  List.filter available (methods st) <> [] ->
  exists selectedMethod rest,
    finalMethods st = selectedMethod :: rest
    /\ selectBestMethod st = (Return selectedMethod, setCurrentMethod selectedMethod st).
Proof.
  intros H. unfold selectBestMethod.
  destruct (availableMethods st) as [|a l] eqn:Ea.
  - apply availableMethods_nil in Ea. contradiction.
  - pose proof (finalMethods_length st) as Hlen. rewrite Ea in Hlen.
    destruct (finalMethods st) as [|selectedMethod rest]; [discriminate Hlen|].
    now exists selectedMethod, rest.
Qed.

(** X8: [selectBestMethod] fails, with its own error and without
    touching the manager, exactly when no method is available; otherwise
    it returns the adjusted copy of an available method whose score no
    other available method exceeds, and stores it as the current
    method. *)
Theorem selectBestMethod_picks_best_score (st : Manager) :
  (List.filter available (methods st) = [] ->
   selectBestMethod st = (Throw (newError "没有可用的播放方案"), st))
  /\ (List.filter available (methods st) <> [] ->
      exists selectedMethod,
        selectBestMethod st = (Return selectedMethod, setCurrentMethod selectedMethod st)
        /\ In selectedMethod (adjustedMethods st)
        /\ forall m, In m (adjustedMethods st) -> score st m <= score st selectedMethod).
Proof.
  split; [apply selectBestMethod_none|].
  intros H. destruct (selectBestMethod_some st H) as (selectedMethod & rest & Hf & Hs).
  exists selectedMethod. split; [exact Hs|].
  pose proof (finalMethods_Permutation st) as Hp.
  pose proof (finalMethods_sorted st) as Hsorted.
  rewrite Hf in Hp, Hsorted.
  split.
  - apply (Permutation_in _ Hp). now left.
  - intros m Hm. apply (Permutation_in _ (Permutation_sym Hp)) in Hm.
    destruct Hm as [<-|Hm]; [apply Qle_refl|].
    inversion Hsorted as [|? ? _ Hall]; subst.
    rewrite List.Forall_forall in Hall. now apply Hall.
Qed.

Lemma selectBestMethod_picks_best_score_witness :
  exists selectedMethod,
    selectBestMethod proxyProven
    = (Return selectedMethod, setCurrentMethod selectedMethod proxyProven)
    /\ In selectedMethod (adjustedMethods proxyProven)
    /\ forall m, In m (adjustedMethods proxyProven) ->
                 score proxyProven m <= score proxyProven selectedMethod.
Proof.
  apply (proj2 (selectBestMethod_picks_best_score proxyProven)).
  vm_compute. discriminate.
Defined.

(** X9: when no method is available (in particular before the capability
    detection has run), [executeWithFallback] fails at once with the
    error of the selection: the caller's function is never called and the
    manager is left as it was. *)
Theorem executeWithFallback_without_method {R : Type} (env : Env R) (st : Manager) (t : Q) :
  List.filter available (methods st) = [] ->
  executeWithFallback env (call st t)
  = (Throw (newError "没有可用的播放方案"), call st t).
Proof.
  intros H. unfold executeWithFallback. cbn [manager call].
  now rewrite (selectBestMethod_none st H).
Qed.

Lemma executeWithFallback_without_method_witness :
  executeWithFallback (webrtcDown None) (call newManager 0)
  = (Throw (newError "没有可用的播放方案"), call newManager 0).
Proof.
  apply (executeWithFallback_without_method (webrtcDown None) newManager 0).
  reflexivity.
Defined.

(** ** The plan of a call *)

Lemma selectedFirst_head (selectedMethod : Method) (l : list Method) :
  (exists x, In x l /\ name x = name selectedMethod) ->
  exists m rest,
    jsSort (selectedFirst selectedMethod) l = m :: rest /\ name m = name selectedMethod.
Proof.
  induction l as [|x l IH]; intros (y & Hin & Hy); [destruct Hin|].
  cbn [jsSort].
  destruct (String.eqb_spec (name x) (name selectedMethod)) as [Hx|Hx].
  - destruct (jsSort (selectedFirst selectedMethod) l) as [|z rest] eqn:E.
    + now exists x, [].
    + cbn [sortInsert]. unfold selectedFirst at 1.
      rewrite Hx, String.eqb_refl. simpl. now exists x, (z :: rest).
  - destruct Hin as [->|Hin]; [contradiction|].
    destruct IH as (m & rest & E & Hm); [now exists y|].
    rewrite E. cbn [sortInsert]. unfold selectedFirst at 1.
    apply String.eqb_neq in Hx. rewrite Hx.
    rewrite Hm, String.eqb_refl. simpl.
    now exists m, (sortInsert (selectedFirst selectedMethod) x rest).
Qed.

(** X10: the plan of [executeWithFallback] holds exactly the available
    methods of the catalog (the objects themselves, not the adjusted
    copies), and it starts with the method that has the name of the
    selected one. *)
Theorem selected_method_is_tried_first (st st' : Manager) (selectedMethod : Method) :
  selectBestMethod st = (Return selectedMethod, st') ->
  Permutation (methodsToTry st' selectedMethod) (List.filter available (methods st))
  /\ exists m rest,
      methodsToTry st' selectedMethod = m :: rest
      /\ name m = name selectedMethod
      /\ In m (methods st) /\ available m = true.
Proof.
  intros Hsel. apply selectBestMethod_Return in Hsel as [-> Hhead].
  unfold methodsToTry. cbn [setCurrentMethod methods].
  split; [apply jsSort_Permutation|].
  assert (Hin : In selectedMethod (finalMethods st)).
  { destruct (finalMethods st); [discriminate|]. injection Hhead as ->. now left. }
  apply finalMethods_origin in Hin as (m0 & Hin & Hav & Hcopy).
  destruct (selectedFirst_head selectedMethod (List.filter available (methods st)))
    as (m & rest & E & Hm).
  { exists m0. split; [now apply List.filter_In|].
    rewrite Hcopy. now rewrite optimizedMethod_name. }
  exists m, rest. split; [exact E|]. split; [exact Hm|].
  apply List.filter_In. apply (jsSort_In (selectedFirst selectedMethod)).
  rewrite E. now left.
Qed.

Lemma selected_method_is_tried_first_witness :
  exists m rest,
    methodsToTry (setCurrentMethod (optimizedMethod Fast (setAvailable true webrtc))
                                   (detected "4g"))
                 (optimizedMethod Fast (setAvailable true webrtc)) = m :: rest
    /\ name m = name (optimizedMethod Fast (setAvailable true webrtc))
    /\ In m (methods (detected "4g")) /\ available m = true.
Proof.
  refine (proj2 (selected_method_is_tried_first (detected "4g")
                   (setCurrentMethod (optimizedMethod Fast (setAvailable true webrtc))
                                     (detected "4g"))
                   (optimizedMethod Fast (setAvailable true webrtc)) _)).
  vm_compute. reflexivity.
Defined.

(** ** Detection *)

(** X11: a method that declares no requirement is available after the
    detection on every device, so the selection cannot fail for want of
    a method; with the catalog of the constructor, [direct] is such a
    method. *)
Theorem method_without_requirements_is_available (st : Manager) (m : Method) :
  In m (methods st) -> requirements m = [] ->
  In (setAvailable true m) (List.filter available (methods (detectMethodAvailability st)))
  /\ exists selectedMethod,
      fst (selectBestMethod (detectMethodAvailability st)) = Return selectedMethod.
Proof.
  intros Hin Hreq.
  assert (H : In (setAvailable true m)
                 (List.filter available (methods (detectMethodAvailability st)))).
  { apply List.filter_In. split; [|reflexivity].
    cbn [detectMethodAvailability setMethods methods].
    apply List.in_map_iff. exists m. split; [|exact Hin].
    unfold checkMethodRequirements. now rewrite Hreq. }
  split; [exact H|].
  destruct (selectBestMethod_some (detectMethodAvailability st))
    as (selectedMethod & rest & _ & Hs).
  - intros E. rewrite E in H. destruct H.
  - exists selectedMethod. now rewrite Hs.
Qed.

Lemma method_without_requirements_is_available_witness :
  exists selectedMethod,
    fst (selectBestMethod (detectMethodAvailability newManager)) = Return selectedMethod.
Proof.
  refine (proj2 (method_without_requirements_is_available newManager direct _ _)).
  - simpl. tauto.
  - reflexivity.
Defined.

(** ** The network category *)

Lemma getNetworkSpeedCategory_networkInfo (st : Manager) (n : NetworkInfo) :
  getNetworkSpeedCategory (setNetworkInfo n st) = speedOf n.
Proof. reflexivity. Qed.

(** X12: the three signals of the network are read in a fixed order.  A
    manager that has a network description never classifies it as
    unknown; a known effective type decides alone; otherwise a downlink
    that is present and not zero decides alone; a downlink of zero counts
    as absent; and with no usable signal the category is medium. *)
Theorem network_signals_precedence :
  (forall st n, getNetworkSpeedCategory (setNetworkInfo n st) <> Unknown)
  /\ (forall et dl bw dl' bw',
         knownEffectiveType et = true ->
         speedOf (mkNetworkInfo et dl bw) = speedOf (mkNetworkInfo et dl' bw'))
  /\ (forall et dl bw bw',
         Qeq_bool dl 0 = false ->
         speedOf (mkNetworkInfo et (Some dl) bw) = speedOf (mkNetworkInfo et (Some dl) bw'))
  /\ (forall et dl bw,
         Qeq_bool dl 0 = true ->
         speedOf (mkNetworkInfo et (Some dl) bw) = speedOf (mkNetworkInfo et None bw))
  /\ (forall et,
         knownEffectiveType et = false ->
         speedOf (mkNetworkInfo et None None) = Medium).
Proof.
  split; [|split; [|split; [|split]]].
  - intros st n. rewrite getNetworkSpeedCategory_networkInfo.
    unfold speedOf, getNetworkSpeedCategory. cbn [networkInfo setNetworkInfo].
    destruct (String.eqb (effective_type n) "slow-2g" || String.eqb (effective_type n) "2g");
      [discriminate|].
    destruct (String.eqb (effective_type n) "3g"); [discriminate|].
    destruct (String.eqb (effective_type n) "4g"); [discriminate|].
    destruct (truthyNum (downlink n)) as [dl|].
    + destruct (Qltb dl 1); [discriminate|]. destruct (Qltb dl 10); discriminate.
    + destruct (truthyNum (bandwidth_estimate n)) as [bw|]; [|discriminate].
      destruct (Qltb bw 1000000); [discriminate|].
      destruct (Qltb bw 10000000); discriminate.
  - intros et dl bw dl' bw'. unfold knownEffectiveType, speedOf, getNetworkSpeedCategory.
    cbn [networkInfo setNetworkInfo effective_type].
    destruct (String.eqb et "slow-2g"), (String.eqb et "2g"), (String.eqb et "3g"),
      (String.eqb et "4g"); simpl; try reflexivity; discriminate.
  - intros et dl bw bw' Hdl. unfold speedOf, getNetworkSpeedCategory.
    cbn [networkInfo setNetworkInfo effective_type downlink truthyNum].
    now rewrite Hdl.
  - intros et dl bw Hdl. unfold speedOf, getNetworkSpeedCategory.
    cbn [networkInfo setNetworkInfo effective_type downlink truthyNum].
    now rewrite Hdl.
  - intros et. unfold knownEffectiveType, speedOf, getNetworkSpeedCategory.
    cbn [networkInfo setNetworkInfo effective_type downlink bandwidth_estimate truthyNum].
    destruct (String.eqb et "slow-2g"), (String.eqb et "2g"), (String.eqb et "3g"),
      (String.eqb et "4g"); simpl; try reflexivity; discriminate.
Qed.

(** A downlink of 0.4 Mbit/s makes the network slow whatever the
    bandwidth probe measured. *)
Lemma network_signals_precedence_witness :
  speedOf (mkNetworkInfo "unknown" (Some 0.4) (Some 50000000))
  = speedOf (mkNetworkInfo "unknown" (Some 0.4) None).
Proof.
  apply (proj1 (proj2 (proj2 network_signals_precedence)) "unknown" 0.4). reflexivity.
Defined.

(** ** The outcome of a call *)

Lemma last_limitLength_snoc {A : Type} (bound : nat) (l : list A) (x : A) :
  (0 < bound)%nat -> last (limitLength bound (l ++ [x])) = Some x.
Proof.
  intros Hb. unfold limitLength.
  destruct (Nat.ltb_spec bound (length (l ++ [x]))) as [Hlt|Hle]; [|apply last_snoc].
  destruct l as [|y l]; [simpl in Hlt; lia|].
  simpl. apply last_snoc.
Qed.

Section Outcome.

Context {R : Type}.
Variable env : Env R.

Lemma attemptLoop_leftWith (m : Method) (n : nat) :
  forall (i : Z) (le : option JsError) (w : World R),
    Forall failed (trace w) -> calls w = length (trace w) ->
    leftWith (attemptLoop env m n i le w)
    /\ calls (signalWorld (attemptLoop env m n i le w))
       = length (trace (signalWorld (attemptLoop env m n i le w))).
Proof.
  induction n as [|n IH]; intros i le w Hf Hc; [now split|].
  cbn [attemptLoop].
  destruct (race (playFunction env (calls w) m) (timeout m)) as [elapsed [result|error]].
  - cbn [leftWith signalWorld setManager trace calls manager]. split.
    + exists (trace w), (mkAttempt m i (timeout m) (inl result)).
      split; [reflexivity|]. split; [reflexivity|]. split; [exact Hf|].
      simpl. rewrite last_limitLength_snoc by lia. reflexivity.
    + rewrite length_app. simpl. lia.
  - assert (Hf' : Forall failed (trace w ++ [mkAttempt m i (timeout m) (inr error)])).
    { apply Forall_app. split; [exact Hf|]. constructor; [now exists error | constructor]. }
    assert (Hc' : S (calls w)
                  = length (trace w ++ [mkAttempt m i (timeout m) (inr error)])).
    { rewrite length_app. simpl. lia. }
    destruct (globalAttemptStartTime env) as [g|].
    + apply IH; now destruct (i <? retries m - 1)%Z.
    + now split.
Qed.

Lemma methodLoop_leftWith (ms : list Method) :
  forall (le : option JsError) (w : World R),
    Forall failed (trace w) -> calls w = length (trace w) ->
    leftWith (methodLoop env ms le w)
    /\ calls (signalWorld (methodLoop env ms le w))
       = length (trace (signalWorld (methodLoop env ms le w))).
Proof.
  induction ms as [|m ms IH]; intros le w Hf Hc; [now split|].
  cbn [methodLoop].
  destruct (attemptLoop_leftWith m (Z.to_nat (retries m)) 0 le w Hf Hc) as [H1 H2].
  destruct (attemptLoop env m (Z.to_nat (retries m)) 0 le w) as [c w'|le' w'];
    [now split | now apply IH].
Qed.

End Outcome.

(** X13: a call that returns has made its attempts one after the other
    and stopped at the first that succeeded: the returned value is the
    one of the last attempt, every attempt before it failed, and the
    latest entry of the connection-time list is the success of that
    method.  A call that throws has seen every attempt fail.  In both
    cases the caller's function was called once per attempt. *)
Theorem result_is_the_last_attempt {R : Type} (env : Env R) (st : Manager) (t : Q) :
  match fst (executeWithFallback env (call st t)) with
  | Return v => returned v (snd (executeWithFallback env (call st t)))
  | Throw _ => Forall failed (trace (snd (executeWithFallback env (call st t))))
  end
  /\ calls (snd (executeWithFallback env (call st t)))
     = length (trace (snd (executeWithFallback env (call st t)))).
Proof.
  unfold executeWithFallback. cbn [manager call].
  destruct (selectBestMethod st) as [[selectedMethod|e] st'].
  - destruct (methodLoop_leftWith env (methodsToTry st' selectedMethod) None
                (setManager st' (mkWorld st t 0 [])))
      as [H1 H2]; [constructor | reflexivity |].
    destruct (methodLoop env _ None _) as [[v|e] w'|le w']; now split.
  - split; [constructor | reflexivity].
Qed.

(** ** The duration of a call *)

Lemma Qltb_lt (a b : Q) : Qltb a b = true -> a < b.
Proof.
  unfold Qltb. intros H. apply negb_true_iff in H.
  apply Qnot_le_lt. intros Hle. apply Qle_bool_iff in Hle. congruence.
Qed.

Lemma race_elapsed {R : Type} (b : OpBehaviour R) (ms : Q) :
  fst (race b ms) <= Qmax 0 ms.
Proof.
  unfold race. destruct b as [after v|after e|].
  - destruct (Qltb after (Qmax 0 ms)) eqn:E; simpl;
      [apply Qlt_le_weak, Qltb_lt, E | apply Qle_refl].
  - destruct (Qltb after (Qmax 0 ms)) eqn:E; simpl;
      [apply Qlt_le_weak, Qltb_lt, E | apply Qle_refl].
  - apply Qle_refl.
Qed.

Lemma backoffWaits_nonneg (r : Z) (n : nat) :
  forall i, (0 <= i)%Z -> (0 <= backoffWaits r i n)%Z.
Proof.
  induction n as [|n IH]; intros i Hi; simpl; [lia|].
  specialize (IH (i + 1)%Z ltac:(lia)).
  destruct (i <? r - 1)%Z; lia.
Qed.

Lemma backoffWaits_closed (r : Z) (n : nat) :
  forall i, (0 <= i)%Z -> (i + Z.of_nat (S n) = r)%Z ->
            backoffWaits r i (S n) = (500 * (r * (r - 1) - i * (i + 1)))%Z.
Proof.
  induction n as [|n IH]; intros i Hi Hr.
  - cbn [backoffWaits]. destruct (Z.ltb_spec i (r - 1)); [lia|].
    assert (i = r - 1)%Z as -> by lia. ring.
  - cbn [backoffWaits] in *.
    rewrite (IH (i + 1)%Z) by lia.
    destruct (Z.ltb_spec i (r - 1)); [ring | lia].
Qed.

Lemma backoffWaits_all (r : Z) :
  backoffWaits r 0 (Z.to_nat r) = (500 * Z.max 0 r * (Z.max 0 r - 1))%Z.
Proof.
  destruct (Z.to_nat r) as [|n] eqn:E.
  - assert (Z.max 0 r = 0)%Z as -> by lia. reflexivity.
  - rewrite backoffWaits_closed by lia.
    assert (Z.max 0 r = r)%Z as -> by lia. ring.
Qed.

Section Duration.

Context {R : Type}.
Variable env : Env R.

Lemma attemptLoop_clock (m : Method) (n : nat) :
  forall (i : Z) (le : option JsError) (w : World R),
    (0 <= i)%Z ->
    clock (signalWorld (attemptLoop env m n i le w))
    <= clock w + inject_Z (Z.of_nat n) * Qmax 0 (timeout m)
       + inject_Z (backoffWaits (retries m) i n).
Proof.
  induction n as [|n IH]; intros i le w Hi.
  - cbn [attemptLoop signalWorld backoffWaits].
    change (inject_Z (Z.of_nat 0)) with 0. change (inject_Z 0) with 0. lra.
  - pose proof (race_elapsed (playFunction env (calls w) m) (timeout m)) as Hel.
    pose proof (Q.le_max_l 0 (timeout m)) as Hdue.
    pose proof (backoffWaits_nonneg (retries m) (S n) i Hi) as Hw.
    rewrite Zle_Qle in Hw. change (inject_Z 0) with 0 in Hw.
    assert (Hn : 0 <= inject_Z (Z.of_nat n)).
    { change 0 with (inject_Z 0). rewrite <- Zle_Qle. lia. }
    assert (HS : inject_Z (Z.of_nat (S n)) * Qmax 0 (timeout m)
                 == inject_Z (Z.of_nat n) * Qmax 0 (timeout m) + Qmax 0 (timeout m)).
    { rewrite Nat2Z.inj_succ. unfold Z.succ. rewrite inject_Z_plus.
      change (inject_Z 1) with 1. ring. }
    assert (Hprod : 0 <= inject_Z (Z.of_nat n) * Qmax 0 (timeout m))
      by (now apply Qmult_le_0_compat).
    rewrite HS.
    set (busy := inject_Z (Z.of_nat n) * Qmax 0 (timeout m)) in *.
    set (due := Qmax 0 (timeout m)) in *.
    cbn [attemptLoop].
    destruct (race (playFunction env (calls w) m) (timeout m)) as [elapsed [result|error]];
      cbn [fst] in Hel.
    + cbn [signalWorld setManager clock]. lra.
    + destruct (globalAttemptStartTime env) as [g|].
      * match goal with
        | |- clock (signalWorld (attemptLoop env m n ?i' ?le' ?w')) <= _ =>
            pose proof (IH i' le' w' ltac:(lia)) as Hrec;
            assert (Hclock : clock w'
                             == clock w + elapsed
                                + inject_Z (if (i <? retries m - 1)%Z
                                            then 1000 * (i + 1) else 0))
        end.
        { destruct (i <? retries m - 1)%Z; cbn [delay setManager clock].
          - rewrite inject_Z_mult. reflexivity.
          - change (inject_Z 0) with 0. lra. }
        rewrite Hclock in Hrec. fold busy in Hrec.
        cbn [backoffWaits].
        rewrite (inject_Z_plus (if (i <? retries m - 1)%Z then 1000 * (i + 1) else 0)
                               (backoffWaits (retries m) (i + 1) n)).
        eapply Qle_trans; [exact Hrec|]. lra.
      * cbn [signalWorld clock]. lra.
Qed.

Lemma attemptBudget_nonneg (m : Method) : 0 <= attemptBudget m.
Proof.
  unfold attemptBudget.
  assert (H1 : 0 <= inject_Z (Z.max 0 (retries m)))
    by (change 0 with (inject_Z 0); rewrite <- Zle_Qle; lia).
  assert (H2 : 0 <= inject_Z (500 * Z.max 0 (retries m) * (Z.max 0 (retries m) - 1))).
  { change 0 with (inject_Z 0). rewrite <- Zle_Qle. nia. }
  pose proof (Q.le_max_l 0 (timeout m)) as H3.
  pose proof (Qmult_le_0_compat _ _ H1 H3). simpl. lra.
Qed.

Lemma sumQ_budget_nonneg (ms : list Method) : 0 <= sumQ (map attemptBudget ms).
Proof.
  induction ms as [|m ms IH]; simpl; [apply Qle_refl|].
  pose proof (attemptBudget_nonneg m). lra.
Qed.

Lemma methodLoop_clock (ms : list Method) :
  forall (le : option JsError) (w : World R),
    clock (signalWorld (methodLoop env ms le w)) <= clock w + sumQ (map attemptBudget ms).
Proof.
  induction ms as [|m ms IH]; intros le w.
  - simpl. lra.
  - cbn [methodLoop map sumQ fold_right].
    pose proof (attemptLoop_clock m (Z.to_nat (retries m)) 0 le w ltac:(lia)) as H.
    rewrite backoffWaits_all in H.
    replace (Z.of_nat (Z.to_nat (retries m))) with (Z.max 0 (retries m)) in H by lia.
    fold (sumQ (map attemptBudget ms)).
    pose proof (sumQ_budget_nonneg ms) as Hrest.
    assert (Hb : attemptBudget m
                 == inject_Z (Z.max 0 (retries m)) * Qmax 0 (timeout m)
                    + inject_Z (500 * Z.max 0 (retries m) * (Z.max 0 (retries m) - 1)))
      by reflexivity.
    destruct (attemptLoop env m (Z.to_nat (retries m)) 0 le w) as [c w'|le' w'].
    + simpl in *. rewrite Hb. lra.
    + simpl in H. specialize (IH le' w'). rewrite Hb. lra.
Qed.

End Duration.

Lemma sumQ_Permutation (l l' : list Q) : Permutation l l' -> sumQ l == sumQ l'.
Proof.
  induction 1 as [|x l l' _ IH|x y l|l l' l'' _ IH1 _ IH2]; simpl.
  - reflexivity.
  - now rewrite IH.
  - lra.
  - now rewrite IH1.
Qed.

(** X14: a call cannot last longer than the budgets of the available
    methods allow: for each of them, [retries] attempts of at most
    [timeout] milliseconds and the waits of 1000, 2000, ... milliseconds
    between them.  This holds whatever the caller's function does, a
    promise that never settles included. *)
Theorem call_duration_is_bounded {R : Type} (env : Env R) (st : Manager) (t : Q) :
  clock (snd (executeWithFallback env (call st t)))
  <= t + sumQ (map attemptBudget (List.filter available (methods st))).
Proof.
  unfold executeWithFallback. cbn [manager call].
  pose proof (sumQ_budget_nonneg (List.filter available (methods st))) as Hpos.
  pose proof (selectBestMethod_methods st) as Hm.
  destruct (selectBestMethod st) as [[selectedMethod|e] st']; simpl in Hm.
  - pose proof (methodLoop_clock env (methodsToTry st' selectedMethod) None
                  (setManager st' (mkWorld st t 0 []))) as H.
    assert (Hperm : sumQ (map attemptBudget (methodsToTry st' selectedMethod))
                    == sumQ (map attemptBudget (List.filter available (methods st)))).
    { apply sumQ_Permutation, Permutation_map. unfold methodsToTry. rewrite Hm.
      apply jsSort_Permutation. }
    rewrite Hperm in H.
    now destruct (methodLoop env _ None _).
  - simpl. lra.
Qed.

Lemma sumQ_filter_le (f : Method -> bool) (ms : list Method) :
  sumQ (map attemptBudget (List.filter f ms)) <= sumQ (map attemptBudget ms).
Proof.
  induction ms as [|m ms IH]; simpl; [apply Qle_refl|].
  pose proof (attemptBudget_nonneg m).
  destruct (f m); simpl; lra.
Qed.

Lemma attemptBudget_declaration (ms : list Method) :
  map attemptBudget ms = map budgetOf (map declaration ms).
Proof. rewrite map_map. now apply map_ext. Qed.

(** X15: with the catalog of the constructor, which no call changes, a
    call of [executeWithFallback] ends within 150 seconds of its start,
    whatever the device, the network, the history and the caller's
    function. *)
Theorem call_ends_within_150_seconds {R : Type} (env : Env R) (st : Manager) (t : Q) :
  Reachable st ->
  clock (snd (executeWithFallback env (call st t))) <= t + 150000.
Proof.
  intros H.
  pose proof (call_duration_bound_of_catalog := sumQ_filter_le available (methods st)).
  rewrite (attemptBudget_declaration (methods st)) in call_duration_bound_of_catalog.
  rewrite (catalogFixed_reachable st H) in call_duration_bound_of_catalog.
  assert (Htotal : sumQ (map budgetOf (map declaration defaultMethods)) == 150000)
    by (vm_compute; reflexivity).
  rewrite Htotal in call_duration_bound_of_catalog.
  unfold executeWithFallback. cbn [manager call].
  pose proof (selectBestMethod_methods st) as Hm.
  destruct (selectBestMethod st) as [[selectedMethod|e] st']; simpl in Hm.
  - pose proof (methodLoop_clock env (methodsToTry st' selectedMethod) None
                  (setManager st' (mkWorld st t 0 []))) as Hloop.
    assert (Hperm : sumQ (map attemptBudget (methodsToTry st' selectedMethod))
                    == sumQ (map attemptBudget (List.filter available (methods st)))).
    { apply sumQ_Permutation, Permutation_map. unfold methodsToTry. rewrite Hm.
      apply jsSort_Permutation. }
    rewrite Hperm in Hloop.
    destruct (methodLoop env _ None _); simpl in *; lra.
  - simpl. lra.
Qed.

(** A caller whose promises never settle is given up after 150 seconds
    when the handler can read [attemptStartTime], and after the first
    timeout, 10 seconds, in an ordinary page. *)
Lemma call_ends_within_150_seconds_witness :
  Reachable (detected "4g")
  /\ clock (snd (executeWithFallback (mkEnv (fun _ _ => @Pending string) (Some 0))
                   (call (detected "4g") 0))) <= 0 + 150000.
Proof.
  assert (H : Reachable (detected "4g"))
    by (apply Reachable_initialize, reach_new).
  split; [exact H|].
  exact (call_ends_within_150_seconds (mkEnv (fun _ _ => @Pending string) (Some 0))
           (detected "4g") 0 H).
Defined.

(** * Properties of the performance optimizer *)

Lemma adaptFrameRate_keeps (currentFps : JsNum) (o : Optimizer) :
  frameRateTarget (adaptFrameRate currentFps o) = frameRateTarget o
  /\ bufferSize (adaptFrameRate currentFps o) = bufferSize o
  /\ optimizationSettings (adaptFrameRate currentFps o) = optimizationSettings o
  /\ renderTimeHistory (adaptFrameRate currentFps o) = renderTimeHistory o
  /\ decodeTimeHistory (adaptFrameRate currentFps o) = decodeTimeHistory o
  /\ lastFrameTime (adaptFrameRate currentFps o) = lastFrameTime o.
Proof.
  unfold adaptFrameRate.
  destruct (negb (enableQualityAdaptation (optimizationSettings o))); [now repeat split|].
  destruct (numBelow currentFps (frameRateTarget o * 0.8));
    [destruct (qualityLevel o); now repeat split|].
  destruct (numAbove currentFps (frameRateTarget o * 1.2));
    [destruct (qualityLevel o); now repeat split | now repeat split].
Qed.

Lemma shouldSkipFrame_keeps (currentTime : Q) (o : Optimizer) :
  frameRateTarget (snd (shouldSkipFrame currentTime o)) = frameRateTarget o
  /\ bufferSize (snd (shouldSkipFrame currentTime o)) = bufferSize o
  /\ optimizationSettings (snd (shouldSkipFrame currentTime o)) = optimizationSettings o
  /\ renderTimeHistory (snd (shouldSkipFrame currentTime o)) = renderTimeHistory o
  /\ decodeTimeHistory (snd (shouldSkipFrame currentTime o)) = decodeTimeHistory o.
Proof.
  unfold shouldSkipFrame.
  destruct (negb (enableFrameSkipping (optimizationSettings o))); [now repeat split|].
  destruct (Qltb _ _); [now repeat split|].
  destruct (Z.rem (frameCounter o + 1) 30 =? 0)%Z; [|now repeat split].
  cbn [snd].
  match goal with
  | |- context [adaptFrameRate ?f ?x] =>
      destruct (adaptFrameRate_keeps f x) as (H1 & H2 & H3 & H4 & H5 & _);
      rewrite H1, H2, H3, H4, H5
  end.
  now repeat split.
Qed.

Lemma optimizeMemoryUsage_keeps (o : Optimizer) :
  frameRateTarget (optimizeMemoryUsage o) = frameRateTarget o
  /\ qualityLevel (optimizeMemoryUsage o) = qualityLevel o
  /\ optimizationSettings (optimizeMemoryUsage o) = optimizationSettings o
  /\ renderTimeHistory (optimizeMemoryUsage o) = renderTimeHistory o
  /\ decodeTimeHistory (optimizeMemoryUsage o) = decodeTimeHistory o.
Proof.
  unfold optimizeMemoryUsage.
  destruct (negb (enableMemoryOptimization (optimizationSettings o))); [now repeat split|].
  destruct (Qltb _ _); now repeat split.
Qed.

Lemma shrink_bounds (x : Q) : 10 <= x -> 10 <= Qmax 10 (x - 5) /\ Qmax 10 (x - 5) <= x.
Proof.
  intros H. destruct (Q.max_spec 10 (x - 5)) as [[Hc ->]|[Hc ->]]; split; lra.
Qed.

Lemma optimizeMemoryUsage_bufferSize (o : Optimizer) :
  10 <= bufferSize o ->
  10 <= bufferSize (optimizeMemoryUsage o)
  /\ bufferSize (optimizeMemoryUsage o) <= bufferSize o.
Proof.
  intros H. unfold optimizeMemoryUsage.
  destruct (negb (enableMemoryOptimization (optimizationSettings o))); [split; lra|].
  destruct (Qltb _ _); [|split; lra].
  cbn [withBufferSize bufferSize]. now apply shrink_bounds.
Qed.

Lemma triggerPerformanceOptimization_bufferSize (o : Optimizer) :
  10 <= bufferSize o ->
  10 <= bufferSize (triggerPerformanceOptimization o)
  /\ bufferSize (triggerPerformanceOptimization o) <= bufferSize o.
Proof.
  intros H. unfold triggerPerformanceOptimization.
  match goal with
  | |- context [optimizeMemoryUsage ?x] =>
      assert (Hx : 10 <= bufferSize x /\ bufferSize x <= bufferSize o)
  end.
  { cbn [withOptimizationSettings withBufferSize bufferSize].
    destruct (qualityLevel o); cbn [withQualityLevel bufferSize]; now apply shrink_bounds. }
  match goal with
  | |- context [optimizeMemoryUsage ?x] =>
      destruct (optimizeMemoryUsage_bufferSize x (proj1 Hx)) as [H1 H2]
  end.
  split; [exact H1|]. destruct Hx as [_ Hx]. lra.
Qed.

Lemma recordRenderTime_bufferSize (startTime endTime : Q) (o : Optimizer) :
  10 <= bufferSize o ->
  10 <= bufferSize (recordRenderTime startTime endTime o)
  /\ bufferSize (recordRenderTime startTime endTime o) <= bufferSize o.
Proof.
  intros H. unfold recordRenderTime.
  destruct (Qltb 16.67 _); [|cbn; split; lra].
  match goal with
  | |- context [triggerPerformanceOptimization ?x] =>
      exact (triggerPerformanceOptimization_bufferSize x H)
  end.
Qed.

Lemma perform_bufferSize (o : Optimizer) (c : OptimizerCall) :
  10 <= bufferSize o ->
  10 <= bufferSize (perform o c) /\ bufferSize (perform o c) <= bufferSize o.
Proof.
  intros H. destruct c as [t|f| |mem|used limit|s e|s e| |]; cbn [perform].
  - rewrite (proj1 (proj2 (shouldSkipFrame_keeps t o))). split; lra.
  - rewrite (proj1 (proj2 (adaptFrameRate_keeps f o))). split; lra.
  - now apply optimizeMemoryUsage_bufferSize.
  - destruct mem as [[used limit]|]; cbn [checkMemoryUsage]; [|split; lra].
    destruct (memoryPercentAbove80 used limit); [|split; lra].
    now apply optimizeMemoryUsage_bufferSize.
  - unfold memoryMonitorTick, checkMemoryUsage.
    destruct (memoryPercentAbove80 used limit); [|cbn; split; lra].
    match goal with
    | |- context [optimizeMemoryUsage ?x] => exact (optimizeMemoryUsage_bufferSize x H)
    end.
  - now apply recordRenderTime_bufferSize.
  - cbn. split; lra.
  - now apply triggerPerformanceOptimization_bufferSize.
  - cbn. split; lra.
Qed.

Lemma performAll_bufferSize (cs : list OptimizerCall) :
  forall o, 10 <= bufferSize o ->
            10 <= bufferSize (performAll cs o)
            /\ bufferSize (performAll cs o) <= bufferSize o.
Proof.
  induction cs as [|c cs IH]; intros o H; [split; [exact H | apply Qle_refl]|].
  cbn [performAll fold_left].
  destruct (perform_bufferSize o c H) as [H1 H2].
  destruct (IH (perform o c) H1) as [H3 H4].
  split; [exact H3|]. unfold performAll in H4. lra.
Qed.

Lemma newOptimizer_bufferSize (b : Browser) :
  10 <= bufferSize (newOptimizer b) /\ bufferSize (newOptimizer b) <= 60.
Proof.
  unfold newOptimizer, init, optimizeForTeslaHardware, setupPerformanceMonitoring,
    detectHardwareCapabilities.
  destruct (includes (userAgent b) "Tesla" || includes (userAgent b) "QtCarBrowser").
  - destruct (includes (userAgent b) "Model S" || includes (userAgent b) "Model X");
      [cbn; split; lra|].
    destruct (includes (userAgent b) "Model 3" || includes (userAgent b) "Model Y");
      cbn; split; lra.
  - destruct (rendererInfo b) as [renderer|];
      [destruct (includes renderer "Tesla" || includes renderer "NVIDIA")|];
      (destruct (truthyNum (deviceMemory b)) as [gb|];
       [destruct (Qle_bool 8 gb); [|destruct (Qle_bool 4 gb)]|]);
      (destruct (truthyNum (hardwareConcurrency b)) as [cores|];
       [destruct (Qle_bool 8 cores)|]);
      cbn; split; lra.
Qed.


Lemma triggerPerformanceOptimization_keeps (o : Optimizer) :
  frameRateTarget (triggerPerformanceOptimization o) = frameRateTarget o
  /\ renderTimeHistory (triggerPerformanceOptimization o) = renderTimeHistory o
  /\ decodeTimeHistory (triggerPerformanceOptimization o) = decodeTimeHistory o
  /\ lastFrameTime (triggerPerformanceOptimization o) = lastFrameTime o.
Proof.
  unfold triggerPerformanceOptimization, optimizeMemoryUsage.
  destruct (qualityLevel o); cbn;
    destruct (negb (enableMemoryOptimization (optimizationSettings o)));
    try (now repeat split);
    destruct (Qltb _ _); now repeat split.
Qed.

Lemma checkMemoryUsage_keeps (memory : option (Q * Q)) (o : Optimizer) :
  frameRateTarget (checkMemoryUsage memory o) = frameRateTarget o
  /\ qualityLevel (checkMemoryUsage memory o) = qualityLevel o
  /\ renderTimeHistory (checkMemoryUsage memory o) = renderTimeHistory o
  /\ decodeTimeHistory (checkMemoryUsage memory o) = decodeTimeHistory o.
Proof.
  destruct memory as [[used limit]|]; cbn [checkMemoryUsage]; [|now repeat split].
  destruct (memoryPercentAbove80 used limit); [|now repeat split].
  destruct (optimizeMemoryUsage_keeps o) as (H1 & H2 & _ & H4 & H5). now repeat split.
Qed.

Lemma perform_frameRateTarget (o : Optimizer) (c : OptimizerCall) :
  frameRateTarget (perform o c) = frameRateTarget o.
Proof.
  destruct c as [t|f| |mem|used limit|s e|s e| |]; cbn [perform].
  - apply shouldSkipFrame_keeps.
  - apply adaptFrameRate_keeps.
  - apply optimizeMemoryUsage_keeps.
  - apply checkMemoryUsage_keeps.
  - unfold memoryMonitorTick. now rewrite (proj1 (checkMemoryUsage_keeps _ _)).
  - unfold recordRenderTime. destruct (Qltb 16.67 _); [|reflexivity].
    now rewrite (proj1 (triggerPerformanceOptimization_keeps _)).
  - reflexivity.
  - apply triggerPerformanceOptimization_keeps.
  - reflexivity.
Qed.

Lemma newOptimizer_frameRateTarget (b : Browser) :
  frameRateTarget (newOptimizer b) = 30 \/ frameRateTarget (newOptimizer b) = 60.
Proof.
  unfold newOptimizer, init, optimizeForTeslaHardware, setupPerformanceMonitoring,
    detectHardwareCapabilities.
  destruct (includes (userAgent b) "Tesla" || includes (userAgent b) "QtCarBrowser").
  - destruct (includes (userAgent b) "Model S" || includes (userAgent b) "Model X");
      [now right|].
    destruct (includes (userAgent b) "Model 3" || includes (userAgent b) "Model Y");
      now left.
  - destruct (rendererInfo b) as [renderer|];
      [destruct (includes renderer "Tesla" || includes renderer "NVIDIA")|];
      (destruct (truthyNum (deviceMemory b)) as [gb|];
       [destruct (Qle_bool 8 gb); [|destruct (Qle_bool 4 gb)]|]);
      (destruct (truthyNum (hardwareConcurrency b)) as [cores|];
       [destruct (Qle_bool 8 cores)|]);
      cbn; tauto.
Qed.

Lemma performAll_frameRateTarget (cs : list OptimizerCall) (o : Optimizer) :
  frameRateTarget (performAll cs o) = frameRateTarget o.
Proof.
  revert o. induction cs as [|c cs IH]; intros o; [reflexivity|].
  cbn [performAll fold_left]. unfold performAll in IH.
  now rewrite IH, perform_frameRateTarget.
Qed.


Lemma perform_histories (o : Optimizer) (c : OptimizerCall) :
  (length (renderTimeHistory o) <= 100)%nat ->
  (length (decodeTimeHistory o) <= 100)%nat ->
  (length (renderTimeHistory (perform o c)) <= 100)%nat
  /\ (length (decodeTimeHistory (perform o c)) <= 100)%nat.
Proof.
  intros Hr Hd. destruct c as [t|f| |mem|used limit|s e|s e| |]; cbn [perform].
  - destruct (shouldSkipFrame_keeps t o) as (_ & _ & _ & -> & ->). now split.
  - destruct (adaptFrameRate_keeps f o) as (_ & _ & _ & -> & -> & _). now split.
  - destruct (optimizeMemoryUsage_keeps o) as (_ & _ & _ & -> & ->). now split.
  - destruct (checkMemoryUsage_keeps mem o) as (_ & _ & -> & ->). now split.
  - unfold memoryMonitorTick.
    match goal with
    | |- context [checkMemoryUsage ?m ?x] =>
        destruct (checkMemoryUsage_keeps m x) as (_ & _ & -> & ->)
    end.
    now split.
  - assert (Hnew : (length (limitLength 100 (renderTimeHistory o ++ [(e - s)%Q])) <= 100)%nat)
      by now apply limitLength_snoc_length.
    unfold recordRenderTime. destruct (Qltb 16.67 _); [|now split].
    match goal with
    | |- context [triggerPerformanceOptimization ?x] =>
        destruct (triggerPerformanceOptimization_keeps x) as (_ & -> & -> & _)
    end.
    now split.
  - split; [exact Hr|]. cbn. now apply limitLength_snoc_length.
  - destruct (triggerPerformanceOptimization_keeps o) as (_ & -> & -> & _). now split.
  - cbn. split; lia.
Qed.

(** X21: the two timing histories of an optimizer never hold more than
    100 samples. *)
Theorem timing_histories_stay_bounded (b : Browser) (cs : list OptimizerCall) :
  (length (renderTimeHistory (performAll cs (newOptimizer b))) <= 100)%nat
  /\ (length (decodeTimeHistory (performAll cs (newOptimizer b))) <= 100)%nat.
Proof.
  assert (H0 : (length (renderTimeHistory (newOptimizer b)) <= 100)%nat
               /\ (length (decodeTimeHistory (newOptimizer b)) <= 100)%nat).
  { unfold newOptimizer, init, optimizeForTeslaHardware.
    destruct (includes (userAgent b) "Tesla" || includes (userAgent b) "QtCarBrowser");
      [|cbn; lia].
    destruct (includes (userAgent b) "Model S" || includes (userAgent b) "Model X");
      [cbn; lia|].
    destruct (includes (userAgent b) "Model 3" || includes (userAgent b) "Model Y");
      cbn; lia. }
  revert H0. generalize (newOptimizer b).
  induction cs as [|c cs IH]; intros o [Hr Hd]; [now split|].
  cbn [performAll fold_left]. apply IH. now apply perform_histories.
Qed.

Lemma adaptFrameRate_auto (currentFps : JsNum) (o : Optimizer) :
  qualityLevel o = qAuto -> qualityLevel (adaptFrameRate currentFps o) = qAuto.
Proof.
  intros H. unfold adaptFrameRate.
  destruct (negb (enableQualityAdaptation (optimizationSettings o))); [exact H|].
  destruct (numBelow currentFps (frameRateTarget o * 0.8)); [now rewrite H|].
  destruct (numAbove currentFps (frameRateTarget o * 1.2)); now rewrite H.
Qed.

Lemma triggerPerformanceOptimization_auto (o : Optimizer) :
  qualityLevel o = qAuto -> qualityLevel (triggerPerformanceOptimization o) = qAuto.
Proof.
  intros H. unfold triggerPerformanceOptimization.
  rewrite (proj1 (proj2 (optimizeMemoryUsage_keeps _))). now rewrite H.
Qed.

Lemma perform_auto (o : Optimizer) (c : OptimizerCall) :
  qualityLevel o = qAuto -> qualityLevel (perform o c) = qAuto.
Proof.
  intros H. destruct c as [t|f| |mem|used limit|s e|s e| |]; cbn [perform].
  - unfold shouldSkipFrame.
    destruct (negb (enableFrameSkipping (optimizationSettings o))); [exact H|].
    destruct (Qltb _ _); [exact H|].
    destruct (Z.rem (frameCounter o + 1) 30 =? 0)%Z; [|exact H].
    cbn [snd]. now apply adaptFrameRate_auto.
  - now apply adaptFrameRate_auto.
  - now rewrite (proj1 (proj2 (optimizeMemoryUsage_keeps o))).
  - now rewrite (proj1 (proj2 (checkMemoryUsage_keeps mem o))).
  - unfold memoryMonitorTick. now rewrite (proj1 (proj2 (checkMemoryUsage_keeps _ _))).
  - unfold recordRenderTime. destruct (Qltb 16.67 _); [|exact H].
    now apply triggerPerformanceOptimization_auto.
  - exact H.
  - now apply triggerPerformanceOptimization_auto.
  - exact H.
Qed.

Lemma newOptimizer_auto (b : Browser) :
  truthyNum (deviceMemory b) = None ->
  isTesla b && (isModelSX b || isModel3Y b) = false ->
  qualityLevel (newOptimizer b) = qAuto.
Proof.
  intros Hmem Hua.
  unfold newOptimizer, init, optimizeForTeslaHardware, setupPerformanceMonitoring,
    detectHardwareCapabilities.
  rewrite Hmem. unfold isTesla, isModelSX, isModel3Y in Hua.
  destruct (includes (userAgent b) "Tesla" || includes (userAgent b) "QtCarBrowser");
    [simpl in Hua; apply orb_false_iff in Hua as [-> ->]|];
    (destruct (rendererInfo b) as [renderer|];
     [destruct (includes renderer "Tesla" || includes renderer "NVIDIA")|]);
    (destruct (truthyNum (hardwareConcurrency b)) as [cores|];
     [destruct (Qle_bool 8 cores)|]);
    reflexivity.
Qed.

(** X22: an optimizer built in a browser that does not tell its device
    memory, and is not a Tesla of a known model, has the quality level
    ['auto'] and never leaves it: no adaptation to the frame rate and no
    optimization changes the level, and the decoder configuration never
    gets a bit rate or a resolution limit. *)
Theorem auto_quality_is_never_left (b : Browser) (cs : list OptimizerCall) :
  truthyNum (deviceMemory b) = None ->
  isTesla b && (isModelSX b || isModel3Y b) = false ->
  qualityLevel (performAll cs (newOptimizer b)) = qAuto
  /\ targetBitrate (optimizeVideoDecoding (performAll cs (newOptimizer b))) = None
  /\ maxWidth (optimizeVideoDecoding (performAll cs (newOptimizer b))) = None
  /\ maxHeight (optimizeVideoDecoding (performAll cs (newOptimizer b))) = None.
Proof.
  intros Hmem Hua.
  assert (H : qualityLevel (performAll cs (newOptimizer b)) = qAuto).
  { pose proof (newOptimizer_auto b Hmem Hua) as H0. revert H0.
    generalize (newOptimizer b).
    induction cs as [|c cs IH]; intros o H0; [exact H0|].
    cbn [performAll fold_left]. apply IH. now apply perform_auto. }
  split; [exact H|]. unfold optimizeVideoDecoding. rewrite H. now repeat split.
Qed.

(** Thirty slow frames and a slow rendering on a desktop browser. *)
Lemma auto_quality_is_never_left_witness :
  qualityLevel
    (performAll [CallRecordRenderTime 0 40; CallAdaptFrameRate (Num 5);
                 CallTriggerPerformanceOptimization]
       (newOptimizer desktopBrowser)) = qAuto.
Proof.
  refine (proj1 (auto_quality_is_never_left desktopBrowser
                   [CallRecordRenderTime 0 40; CallAdaptFrameRate (Num 5);
                    CallTriggerPerformanceOptimization] _ _)).
  - reflexivity.
  - vm_compute. reflexivity.
Defined.

Lemma fold_left_Qplus_le (c : Q) (l : list Q) :
  forall a, Forall (fun x => x <= c) l ->
            fold_left Qplus l a <= a + inject_Z (Z.of_nat (length l)) * c.
Proof.
  induction l as [|x l IH]; intros a H.
  - cbn [fold_left length Z.of_nat].
    assert (E : a + inject_Z 0 * c == a) by (change (inject_Z 0) with 0; ring).
    rewrite E. apply Qle_refl.
  - inversion H as [|? ? Hx Hl]; subst.
    cbn [fold_left length]. specialize (IH (a + x) Hl).
    rewrite Nat2Z.inj_succ. unfold Z.succ. rewrite inject_Z_plus.
    change (inject_Z 1) with 1.
    set (n := inject_Z (Z.of_nat (length l))) in *.
    assert (E : (n + 1) * c == n * c + c) by ring.
    rewrite E. set (total := n * c) in *.
    eapply Qle_trans; [exact IH|]. lra.
Qed.

(** The mean of samples that are all at most [c] is at most [c]. *)
Lemma average_le (c : Q) (l : list Q) :
  l <> [] -> Forall (fun x => x <= c) l -> average l <= c.
Proof.
  intros Hne H. unfold average.
  apply Qle_shift_div_r.
  - change 0 with (inject_Z 0). rewrite <- Zlt_Qlt. destruct l; [contradiction|].
    simpl length. lia.
  - pose proof (fold_left_Qplus_le c l 0 H) as Hs.
    eapply Qle_trans; [exact Hs|].
    set (n := inject_Z (Z.of_nat (length l))).
    assert (E : 0 + n * c == c * n) by ring. rewrite E. apply Qle_refl.
Qed.

Lemma recordRenderTime_inTime (startTime endTime : Q) (o : Optimizer) :
  Forall inTime (renderTimeHistory o) -> inTime (endTime - startTime) ->
  recordRenderTime startTime endTime o
  = withPerformanceMetrics
      (withRenderTime (average (limitLength 100 (renderTimeHistory o ++ [endTime - startTime])))
         (performanceMetrics o))
      (withHistories (limitLength 100 (renderTimeHistory o ++ [endTime - startTime]))
         (decodeTimeHistory o) o)
  /\ Forall inTime (limitLength 100 (renderTimeHistory o ++ [endTime - startTime]))
  /\ average (limitLength 100 (renderTimeHistory o ++ [endTime - startTime])) <= 16.67.
Proof.
  intros Hh Hs.
  assert (Hall : Forall inTime (limitLength 100 (renderTimeHistory o ++ [endTime - startTime]))).
  { apply limitLength_Forall, Forall_app. split; [exact Hh | now repeat constructor]. }
  assert (Havg : average (limitLength 100 (renderTimeHistory o ++ [endTime - startTime]))
                 <= 16.67).
  { apply average_le; [|exact Hall].
    intros E. pose proof (last_limitLength_snoc 100 (renderTimeHistory o)
                            (endTime - startTime) ltac:(lia)) as Hl.
    rewrite E in Hl. discriminate Hl. }
  split; [|now split].
  unfold recordRenderTime.
  assert (E : Qltb 16.67 (average (limitLength 100
                                     (renderTimeHistory o ++ [endTime - startTime])))
              = false).
  { unfold Qltb. apply negb_false_iff, Qle_bool_iff, Havg. }
  now rewrite E.
Qed.



(** ** Frame skipping *)

Lemma shouldSkipFrame_skipped (currentTime : Q) (o : Optimizer) :
  fst (shouldSkipFrame currentTime o) = true -> snd (shouldSkipFrame currentTime o) = o.
Proof.
  unfold shouldSkipFrame.
  destruct (negb (enableFrameSkipping (optimizationSettings o))); [discriminate|].
  destruct (Qltb _ _); [reflexivity|].
  destruct (Z.rem (frameCounter o + 1) 30 =? 0)%Z; discriminate.
Qed.

Lemma shouldSkipFrame_accepted (currentTime : Q) (o : Optimizer) :
  enableFrameSkipping (optimizationSettings o) = true ->
  fst (shouldSkipFrame currentTime o) = false ->
  lastFrameTime o + 1000 / frameRateTarget o * 0.8 <= currentTime
  /\ lastFrameTime (snd (shouldSkipFrame currentTime o)) = currentTime.
Proof.
  intros Hen. unfold shouldSkipFrame. rewrite Hen. cbn [negb].
  destruct (Qltb (currentTime - lastFrameTime o) (1000 / frameRateTarget o * 0.8)) eqn:E;
    [discriminate|].
  intros _. split.
  - unfold Qltb in E. apply negb_false_iff, Qle_bool_iff in E. lra.
  - destruct (Z.rem (frameCounter o + 1) 30 =? 0)%Z; [|reflexivity].
    cbn [snd].
    match goal with
    | |- context [adaptFrameRate ?f ?x] =>
        now rewrite (proj2 (proj2 (proj2 (proj2 (proj2 (adaptFrameRate_keeps f x))))))
    end.
Qed.

Lemma acceptedFrames_spaced (times : list Q) :
  forall o,
    enableFrameSkipping (optimizationSettings o) = true ->
    spaced (1000 / frameRateTarget o * 0.8) (lastFrameTime o :: acceptedFrames times o).
Proof.
  induction times as [|t times IH]; intros o Hen; [exact I|].
  cbn [acceptedFrames].
  destruct (fst (shouldSkipFrame t o)) eqn:E.
  - rewrite (shouldSkipFrame_skipped t o E). now apply IH.
  - destruct (shouldSkipFrame_accepted t o Hen E) as [Hgap Hlast].
    destruct (shouldSkipFrame_keeps t o) as (Ht & _ & Hs & _).
    specialize (IH (snd (shouldSkipFrame t o))).
    rewrite Ht, Hs, Hlast in IH.
    exact (conj Hgap (IH Hen)).
Qed.

Lemma acceptedFrames_all (times : list Q) :
  forall o,
    enableFrameSkipping (optimizationSettings o) = false ->
    acceptedFrames times o = times /\ performAll (map CallShouldSkipFrame times) o = o.
Proof.
  induction times as [|t times IH]; intros o Hen; [now split|].
  cbn [acceptedFrames map performAll fold_left perform].
  unfold shouldSkipFrame. rewrite Hen. cbn [negb fst snd].
  destruct (IH o Hen) as [-> H]. now split.
Qed.

(** X24: while frame skipping is enabled, the frames that are let
    through are at least 0.8 frame periods (of 1000 / target
    milliseconds) apart, starting from the last frame let through
    before; when it is disabled (eight cores or more), no frame is
    skipped and the calls leave the optimizer untouched: frames are not
    counted and the frame rate is never measured. *)
Theorem accepted_frames_are_spaced (b : Browser) (cs : list OptimizerCall) (times : list Q) :
  (enableFrameSkipping (optimizationSettings (performAll cs (newOptimizer b))) = true ->
   spaced (1000 / frameRateTarget (newOptimizer b) * 0.8)
     (lastFrameTime (performAll cs (newOptimizer b))
      :: acceptedFrames times (performAll cs (newOptimizer b))))
  /\ (enableFrameSkipping (optimizationSettings (performAll cs (newOptimizer b))) = false ->
      acceptedFrames times (performAll cs (newOptimizer b)) = times
      /\ performAll (map CallShouldSkipFrame times) (performAll cs (newOptimizer b))
         = performAll cs (newOptimizer b)).
Proof.
  split.
  - intros Hen. rewrite <- (performAll_frameRateTarget cs (newOptimizer b)).
    now apply acceptedFrames_spaced.
  - apply acceptedFrames_all.
Qed.

(** At 30 frames per second a frame is let through every 26.67 ms at
    most: of frames offered every 10 ms, one in three passes. *)
Lemma accepted_frames_are_spaced_witness :
  acceptedFrames [1010; 1020; 1030; 1040; 1050; 1060] (newOptimizer desktopBrowser)
  = [1030; 1060]
  /\ spaced (1000 / frameRateTarget (newOptimizer desktopBrowser) * 0.8)
       (lastFrameTime (performAll [] (newOptimizer desktopBrowser))
        :: acceptedFrames [1010; 1020; 1030; 1040; 1050; 1060]
             (performAll [] (newOptimizer desktopBrowser))).
Proof.
  split; [vm_compute; reflexivity|].
  apply (proj1 (accepted_frames_are_spaced desktopBrowser []
                  [1010; 1020; 1030; 1040; 1050; 1060])).
  vm_compute. reflexivity.
Defined.

(** ** Construction *)

(** X25: in a Tesla browser the settings for the car override what the
    hardware detection found: whatever the renderer, the device memory
    and the number of cores, the buffer size is 20 and memory
    optimization and quality adaptation are on; the frame rate target is
    60 for a Model S or X and 30 otherwise, and the quality level is high
    for a Model S or X and medium for a Model 3 or Y. *)
Theorem tesla_browser_overrides_detection (b : Browser) :
  isTesla b = true ->
  bufferSize (newOptimizer b) = 20
  /\ enableMemoryOptimization (optimizationSettings (newOptimizer b)) = true
  /\ enableQualityAdaptation (optimizationSettings (newOptimizer b)) = true
  /\ frameRateTarget (newOptimizer b) = (if isModelSX b then 60 else 30)
  /\ (isModelSX b = true -> qualityLevel (newOptimizer b) = qHigh)
  /\ (isModelSX b = false -> isModel3Y b = true -> qualityLevel (newOptimizer b) = qMedium).
Proof.
  unfold isTesla, isModelSX, isModel3Y. intros Hua.
  unfold newOptimizer, init, optimizeForTeslaHardware. rewrite Hua.
  destruct (includes (userAgent b) "Model S" || includes (userAgent b) "Model X").
  - cbn. repeat split; intros; discriminate.
  - destruct (includes (userAgent b) "Model 3" || includes (userAgent b) "Model Y").
    + cbn. now repeat split.
    + cbn. repeat split; intros; discriminate.
Qed.

(** A Model 3 with 8 GB of memory: the detection alone would choose a
    buffer of 60 and the high quality. *)
Lemma tesla_browser_overrides_detection_witness :
  bufferSize (detectHardwareCapabilities teslaModel3Browser (constructed teslaModel3Browser))
  = 60
  /\ bufferSize (newOptimizer teslaModel3Browser) = 20
  /\ qualityLevel (newOptimizer teslaModel3Browser) = qMedium.
Proof.
  assert (H : isTesla teslaModel3Browser = true) by (vm_compute; reflexivity).
  split; [vm_compute; reflexivity|].
  split; [exact (proj1 (tesla_browser_overrides_detection teslaModel3Browser H))|].
  apply (proj2 (proj2 (proj2 (proj2 (proj2
           (tesla_browser_overrides_detection teslaModel3Browser H)))))).
  - vm_compute. reflexivity.
  - vm_compute. reflexivity.
Defined.

(** * More on the manager *)

(** X16: after a call, the current method of the manager is the adjusted
    copy chosen by the selection, also when the result came from another
    method, reached by fallback: the loops never update it. *)
Theorem currentMethod_is_the_selected_one {R : Type} (env : Env R) (st st' : Manager)
    (t : Q) (selectedMethod : Method) :
  selectBestMethod st = (Return selectedMethod, st') ->
  currentMethod (manager (snd (executeWithFallback env (call st t)))) = Some selectedMethod.
Proof.
  intros Hsel. unfold executeWithFallback. cbn [manager call]. rewrite Hsel.
  apply selectBestMethod_Return in Hsel as [-> _].
  pose proof (methodLoop_preserves env (fun s => currentMethod s = Some selectedMethod)
                ltac:(now intros) ltac:(now intros)
                (methodsToTry (setCurrentMethod selectedMethod st) selectedMethod) None
                (setManager (setCurrentMethod selectedMethod st) (mkWorld st t 0 []))
                eq_refl) as H.
  now destruct (methodLoop env _ None _).
Qed.

(** The result comes from [proxy]; the current method is the copy of
    [webrtc]. *)
Lemma currentMethod_is_the_selected_one_witness :
  fst (executeWithFallback (webrtcDown (Some 0)) (call (detected "4g") 0)) = Return "playing"
  /\ (name <$> currentMethod
                 (manager (snd (executeWithFallback (webrtcDown (Some 0))
                                  (call (detected "4g") 0)))))
     = Some "webrtc".
Proof.
  split; [vm_compute; reflexivity|].
  rewrite (currentMethod_is_the_selected_one (webrtcDown (Some 0)) (detected "4g")
             (setCurrentMethod (optimizedMethod Fast (setAvailable true webrtc))
                               (detected "4g"))
             0 (optimizedMethod Fast (setAvailable true webrtc))).
  - reflexivity.
  - vm_compute. reflexivity.
Defined.

(** X17: in a page that does not bind [attemptStartTime], as every
    ordinary page, a call makes one attempt at most.  The caller
    receives the result of that attempt if it succeeded, a
    [ReferenceError] if it failed (with nothing added to the attempt
    history), the error of the selection when no method is available,
    or the exhaustion error, without any attempt, when no available
    method has a positive number of retries. *)
Theorem ordinary_page_outcomes {R : Type} (env : Env R) (st : Manager) (t : Q) :
  globalAttemptStartTime env = None ->
  match executeWithFallback env (call st t) with
  | (Return _, w') => length (trace w') = 1%nat
  | (Throw e, w') =>
      (e = newError "没有可用的播放方案" /\ trace w' = [])
      \/ (e = referenceError "attemptStartTime" /\ length (trace w') = 1%nat
          /\ attemptHistory (manager w') = attemptHistory st)
      \/ (e = allFailed None /\ trace w' = [])
  end.
Proof. intros Hg. exact (executeWithFallback_unbound env Hg st t). Qed.

Lemma ordinary_page_outcomes_witness :
  match executeWithFallback failingPage (call (detected "4g") 0) with
  | (Return _, w') => length (trace w') = 1%nat
  | (Throw e, w') =>
      (e = newError "没有可用的播放方案" /\ trace w' = [])
      \/ (e = referenceError "attemptStartTime" /\ length (trace w') = 1%nat
          /\ attemptHistory (manager w') = attemptHistory (detected "4g"))
      \/ (e = allFailed None /\ trace w' = [])
  end.
Proof.
  exact (ordinary_page_outcomes failingPage (detected "4g") 0 eq_refl).
Defined.

(** ** The report *)

(** X18: the report shows the latest attempts only, ten at most, in
    their order, and one availability entry per method of the catalog,
    in its order.  A method never attempted is reported with the success
    rate 0, although the selection scores it with 0.5. *)
Theorem report_shows_latest_attempts (st : Manager) :
  (length (reportedHistory (getPerformanceReport st)) <= 10)%nat
  /\ (exists older,
         attemptHistory st = older ++ reportedHistory (getPerformanceReport st))
  /\ map (fun entry => fst (fst entry)) (methodAvailability (getPerformanceReport st))
     = map name (methods st)
  /\ (forall m, In m (methods st) -> successRate (metrics st) !! name m = None ->
                In (name m, available m, 0) (methodAvailability (getPerformanceReport st))
                /\ rateOrDefault (successRate (metrics st)) (name m) = 0.5).
Proof.
  cbn [getPerformanceReport reportedHistory methodAvailability].
  split; [rewrite sliceLast_length; lia|].
  split.
  { exists (firstn (length (attemptHistory st) - 10) (attemptHistory st)).
    unfold sliceLast. now rewrite firstn_skipn. }
  split; [rewrite map_map; now apply map_ext|].
  intros m Hin Hnone. split.
  - apply List.in_map_iff. exists m. split; [|exact Hin].
    unfold rateOrZero. now rewrite Hnone.
  - now apply rateOrDefault_unseen.
Qed.

(** A manager that has recorded twelve failures of [direct] reports the
    last ten, and [webrtc], never attempted, with the rate 0. *)
Lemma report_shows_latest_attempts_witness :
  In ("webrtc", false, 0)
     (methodAvailability
        (getPerformanceReport
           (recordAll (repeat (Failed direct timeoutError 0 0) 12) newManager)))
  /\ rateOrDefault
       (successRate (metrics (recordAll (repeat (Failed direct timeoutError 0 0) 12)
                                newManager))) "webrtc" = 0.5.
Proof.
  apply (proj2 (proj2 (proj2 (report_shows_latest_attempts
                                (recordAll (repeat (Failed direct timeoutError 0 0) 12)
                                           newManager)))) webrtc).
  - simpl. tauto.
  - vm_compute. reflexivity.
Defined.

(** * More on the optimizer *)

(** ** The quality ladder *)

Lemma adaptFrameRate_rank (currentFps : JsNum) (o : Optimizer) :
  (Z.abs (qualityRank (qualityLevel (adaptFrameRate currentFps o))
          - qualityRank (qualityLevel o)) <= 1)%Z
  /\ (qualityLevel o <> qAuto -> qualityLevel (adaptFrameRate currentFps o) <> qAuto).
Proof.
  unfold adaptFrameRate.
  destruct (negb (enableQualityAdaptation (optimizationSettings o))); [split; [lia | auto]|].
  destruct (numBelow currentFps (frameRateTarget o * 0.8)).
  - destruct (qualityLevel o) eqn:E; cbn; rewrite ?E; split; cbn; try lia; congruence.
  - destruct (numAbove currentFps (frameRateTarget o * 1.2));
      destruct (qualityLevel o) eqn:E; cbn; rewrite ?E; split; cbn; try lia; congruence.
Qed.

Lemma triggerPerformanceOptimization_rank (o : Optimizer) :
  (qualityRank (qualityLevel o) - 1
   <= qualityRank (qualityLevel (triggerPerformanceOptimization o))
   <= qualityRank (qualityLevel o))%Z
  /\ (qualityLevel o <> qAuto -> qualityLevel (triggerPerformanceOptimization o) <> qAuto).
Proof.
  unfold triggerPerformanceOptimization.
  rewrite (proj1 (proj2 (optimizeMemoryUsage_keeps _))).
  destruct (qualityLevel o) eqn:E; cbn; rewrite ?E; split; cbn; try lia; congruence.
Qed.

Lemma perform_rank (o : Optimizer) (c : OptimizerCall) :
  (Z.abs (qualityRank (qualityLevel (perform o c)) - qualityRank (qualityLevel o)) <= 1)%Z
  /\ (measuresFrameRate c = false ->
      (qualityRank (qualityLevel (perform o c)) <= qualityRank (qualityLevel o))%Z)
  /\ (qualityLevel o <> qAuto -> qualityLevel (perform o c) <> qAuto).
Proof.
  destruct c as [t|f| |mem|used limit|s e|s e| |]; cbn [perform measuresFrameRate].
  - assert (H : snd (shouldSkipFrame t o) = o
                \/ exists f x, snd (shouldSkipFrame t o) = adaptFrameRate f x
                               /\ qualityLevel x = qualityLevel o
                \/ qualityLevel (snd (shouldSkipFrame t o)) = qualityLevel o).
    { unfold shouldSkipFrame.
      destruct (negb (enableFrameSkipping (optimizationSettings o))); [now left|].
      destruct (Qltb _ _); [now left|].
      destruct (Z.rem (frameCounter o + 1) 30 =? 0)%Z.
      - right. eexists _, _. left. split; reflexivity.
      - right. exists (Num 0), o. now right. }
    destruct H as [->|(f & x & [[-> Hx]|Hq])].
    + split; [lia|]. split; [discriminate | auto].
    + destruct (adaptFrameRate_rank f x) as [H1 H2]. rewrite Hx in H1, H2.
      split; [exact H1|]. split; [discriminate | exact H2].
    + rewrite Hq. split; [lia|]. split; [discriminate | auto].
  - destruct (adaptFrameRate_rank f o) as [H1 H2].
    split; [exact H1|]. split; [discriminate | exact H2].
  - rewrite (proj1 (proj2 (optimizeMemoryUsage_keeps o))).
    split; [lia|]. split; [lia | auto].
  - rewrite (proj1 (proj2 (checkMemoryUsage_keeps mem o))).
    split; [lia|]. split; [lia | auto].
  - unfold memoryMonitorTick. rewrite (proj1 (proj2 (checkMemoryUsage_keeps _ _))).
    cbn. split; [lia|]. split; [lia | auto].
  - unfold recordRenderTime. destruct (Qltb 16.67 _).
    + match goal with
      | |- context [triggerPerformanceOptimization ?x] =>
          destruct (triggerPerformanceOptimization_rank x) as [H1 H2]
      end.
      cbn [withPerformanceMetrics withHistories qualityLevel] in H1, H2.
      split; [lia|]. split; [lia | exact H2].
    + cbn. split; [lia|]. split; [lia | auto].
  - cbn. split; [lia|]. split; [lia | auto].
  - destruct (triggerPerformanceOptimization_rank o) as [H1 H2].
    split; [lia|]. split; [lia | exact H2].
  - cbn. split; [lia|]. split; [lia | auto].
Qed.



(** ** The frame rate before the first measurement *)

Lemma adaptFrameRate_frames (currentFps : JsNum) (o : Optimizer) :
  frameCounter (adaptFrameRate currentFps o) = frameCounter o
  /\ fps (performanceMetrics (adaptFrameRate currentFps o)) = fps (performanceMetrics o).
Proof.
  unfold adaptFrameRate.
  destruct (negb (enableQualityAdaptation (optimizationSettings o))); [now split|].
  destruct (numBelow currentFps (frameRateTarget o * 0.8)).
  - destruct (qualityLevel o); now split.
  - destruct (numAbove currentFps (frameRateTarget o * 1.2)); [|now split].
    destruct (qualityLevel o); now split.
Qed.

Lemma optimizeMemoryUsage_frames (o : Optimizer) :
  frameCounter (optimizeMemoryUsage o) = frameCounter o
  /\ fps (performanceMetrics (optimizeMemoryUsage o)) = fps (performanceMetrics o).
Proof.
  unfold optimizeMemoryUsage.
  destruct (negb (enableMemoryOptimization (optimizationSettings o))); [now split|].
  destruct (Qltb _ _); now split.
Qed.

Lemma checkMemoryUsage_frames (memory : option (Q * Q)) (o : Optimizer) :
  frameCounter (checkMemoryUsage memory o) = frameCounter o
  /\ fps (performanceMetrics (checkMemoryUsage memory o)) = fps (performanceMetrics o).
Proof.
  destruct memory as [[used limit]|]; cbn [checkMemoryUsage]; [|now split].
  destruct (memoryPercentAbove80 used limit); [|now split].
  apply optimizeMemoryUsage_frames.
Qed.

Lemma triggerPerformanceOptimization_frames (o : Optimizer) :
  frameCounter (triggerPerformanceOptimization o) = frameCounter o
  /\ fps (performanceMetrics (triggerPerformanceOptimization o)) = fps (performanceMetrics o).
Proof.
  unfold triggerPerformanceOptimization.
  match goal with
  | |- context [optimizeMemoryUsage ?x] => destruct (optimizeMemoryUsage_frames x) as [-> ->]
  end.
  destruct (qualityLevel o); now split.
Qed.

Lemma shouldSkipFrame_frames (currentTime : Q) (o : Optimizer) :
  (frameCounter (snd (shouldSkipFrame currentTime o)) = frameCounter o
   /\ fps (performanceMetrics (snd (shouldSkipFrame currentTime o)))
      = fps (performanceMetrics o))
  \/ (frameCounter (snd (shouldSkipFrame currentTime o)) = (frameCounter o + 1)%Z
      /\ (Z.rem (frameCounter o + 1) 30 <> 0%Z ->
          fps (performanceMetrics (snd (shouldSkipFrame currentTime o)))
          = fps (performanceMetrics o))).
Proof.
  unfold shouldSkipFrame.
  destruct (negb (enableFrameSkipping (optimizationSettings o))); [now left|].
  destruct (Qltb _ _); [now left|].
  right. destruct (Z.rem (frameCounter o + 1) 30 =? 0)%Z eqn:E.
  - cbn [snd].
    match goal with
    | |- context [adaptFrameRate ?f ?x] => destruct (adaptFrameRate_frames f x) as [-> ->]
    end.
    cbn. split; [reflexivity|]. apply Z.eqb_eq in E. intros H. now elim H.
  - cbn. split; [reflexivity | auto].
Qed.

Lemma perform_frames (o : Optimizer) (c : OptimizerCall) :
  (frameCounter (perform o c) = frameCounter o
   /\ fps (performanceMetrics (perform o c)) = fps (performanceMetrics o))
  \/ (frameCalls [c] = 1%nat
      /\ frameCounter (perform o c) = (frameCounter o + 1)%Z
      /\ (Z.rem (frameCounter o + 1) 30 <> 0%Z ->
          fps (performanceMetrics (perform o c)) = fps (performanceMetrics o))).
Proof.
  destruct c as [t|f| |mem|used limit|s e|s e| |]; cbn [perform frameCalls List.filter length].
  - destruct (shouldSkipFrame_frames t o) as [H|H]; [now left | now right].
  - left. apply adaptFrameRate_frames.
  - left. apply optimizeMemoryUsage_frames.
  - left. apply checkMemoryUsage_frames.
  - left. unfold memoryMonitorTick.
    match goal with
    | |- context [checkMemoryUsage ?m ?x] => destruct (checkMemoryUsage_frames m x) as [-> ->]
    end.
    now split.
  - left. unfold recordRenderTime. destruct (Qltb 16.67 _).
    + match goal with
      | |- context [triggerPerformanceOptimization ?x] =>
          destruct (triggerPerformanceOptimization_frames x) as [-> ->]
      end.
      now split.
    + now split.
  - left. now split.
  - left. apply triggerPerformanceOptimization_frames.
  - left. now split.
Qed.

Lemma performAll_unmeasured (cs : list OptimizerCall) (o : Optimizer) :
  (0 <= frameCounter o)%Z ->
  (frameCounter o + Z.of_nat (frameCalls cs) < 30)%Z ->
  fps (performanceMetrics (performAll cs o)) = fps (performanceMetrics o).
Proof.
  revert o. induction cs as [|c cs IH]; intros o H0 Hlt; [reflexivity|].
  cbn [performAll fold_left]. fold (performAll cs (perform o c)).
  assert (Hlen : frameCalls (c :: cs) = (frameCalls [c] + frameCalls cs)%nat).
  { unfold frameCalls. cbn [List.filter]. destruct c; reflexivity. }
  rewrite Hlen in Hlt.
  destruct (perform_frames o c) as [[Hc Hf]|(Hone & Hc & Hf)].
  - rewrite IH by lia. exact Hf.
  - rewrite IH by lia. apply Hf. rewrite Z.rem_small by lia. lia.
Qed.

Lemma newOptimizer_unmeasured (b : Browser) :
  frameCounter (newOptimizer b) = 0%Z /\ fps (performanceMetrics (newOptimizer b)) = Num 0.
Proof.
  unfold newOptimizer, init, optimizeForTeslaHardware, setupPerformanceMonitoring,
    detectHardwareCapabilities.
  destruct (includes (userAgent b) "Tesla" || includes (userAgent b) "QtCarBrowser");
    [destruct (includes (userAgent b) "Model S" || includes (userAgent b) "Model X");
     [|destruct (includes (userAgent b) "Model 3" || includes (userAgent b) "Model Y")]|];
    cbn [frameCounter performanceMetrics fps withFrameRateTarget withQualityLevel
         withOptimizationSettings withBufferSize withHistories withFrames];
    (destruct (truthyNum (hardwareConcurrency b)) as [cores|];
     [destruct (Qle_bool 8 cores)|]);
    (destruct (truthyNum (deviceMemory b)) as [memoryGB|];
     [destruct (Qle_bool 8 memoryGB); [|destruct (Qle_bool 4 memoryGB)]|]);
    (destruct (rendererInfo b) as [renderer|];
     [destruct (includes renderer "Tesla" || includes renderer "NVIDIA")|]);
    now split.
Qed.

(** X27: until [shouldSkipFrame] has been called thirty times, an
    optimizer has measured no frame rate: the metric is still the [0] of
    the constructor, whatever else was called, and
    [getOptimizationRecommendations] reports a frame rate that is too
    low. *)
Theorem unmeasured_frame_rate_is_reported_low (b : Browser) (cs : list OptimizerCall) :
  (frameCalls cs < 30)%nat ->
  fps (performanceMetrics (performAll cs (newOptimizer b))) = Num 0
  /\ In "帧率过低，建议降低画质或减少缓冲区大小"
        (getOptimizationRecommendations (performAll cs (newOptimizer b))).
Proof.
  intros Hfew.
  destruct (newOptimizer_unmeasured b) as [Hc Hf].
  assert (Hfps : fps (performanceMetrics (performAll cs (newOptimizer b))) = Num 0).
  { rewrite performAll_unmeasured by (rewrite Hc; lia). exact Hf. }
  split; [exact Hfps|].
  unfold getOptimizationRecommendations. rewrite Hfps, performAll_frameRateTarget.
  destruct (newOptimizer_frameRateTarget b) as [-> | ->]; cbn; now left.
Qed.

Lemma unmeasured_frame_rate_is_reported_low_witness :
  (frameCalls [CallShouldSkipFrame 1000; CallRecordRenderTime 0 20;
               CallShouldSkipFrame 1040] < 30)%nat
  /\ fps (performanceMetrics
            (performAll [CallShouldSkipFrame 1000; CallRecordRenderTime 0 20;
                         CallShouldSkipFrame 1040] (newOptimizer desktopBrowser))) = Num 0
  /\ In "帧率过低，建议降低画质或减少缓冲区大小"
        (getOptimizationRecommendations
           (performAll [CallShouldSkipFrame 1000; CallRecordRenderTime 0 20;
                        CallShouldSkipFrame 1040] (newOptimizer desktopBrowser))).
Proof.
  split; [vm_compute; lia|].
  apply (unmeasured_frame_rate_is_reported_low desktopBrowser). vm_compute. lia.
Defined.
